(** * kanban_api: a shallow embedding of the REST backend and its properties

    The development follows the layering of the Go program:

    - [Strings]: the parts of Go's [strings] package the services call
      ([TrimSpace], [ToLower], [HasPrefix], [TrimPrefix]);
    - [model]: [model.User] and [model.Board];
    - [repository]: the two in-memory stores ([memUserRepo], [memBoardRepo])
      over finite maps, and the two GORM/SQLite stores ([sqliteUserRep],
      [sqliteBoardRepo]) over a small model of the tables they migrate;
    - [service]: [boardService] and [authService], written once against the
      repository interfaces;
    - [middleware]: [AuthRequired];
    - [httpx]: the handlers the properties below talk about.

    Go's multiple return values [(T, error)] are pairs [T * option error]
    ([None] is [nil]); a method with a pointer receiver that mutates its
    receiver returns the new receiver first.  The values a call draws from
    its environment ([generateID()], [time.Now()], the bcrypt salt) are
    explicit arguments.  The mutexes of the in-memory stores are not modelled:
    every method is one critical section, so a sequential run of methods is
    what the locks serialise to. *)

From Stdlib Require Import ZArith List Ascii String DecimalString Lia Bool.
From stdpp Require Import base option gmap strings list fin_maps sorting.

(** ** Time *)

(** [time.Time] as nanoseconds since the Unix epoch, [time.Duration] as
    nanoseconds (Go's own representation of a Duration). *)
Definition Time := Z.
Definition Duration := Z.

Definition Nanosecond : Duration := 1%Z.
Definition Second : Duration := 1000000000%Z.
Definition Hour : Duration := (3600 * Second)%Z.

(** The zero [time.Time] (January 1, year 1, 00:00:00 UTC). *)
Definition zeroTime : Time := (-62135596800 * Second)%Z.

Definition Time_Add (t : Time) (d : Duration) : Time := (t + d)%Z.
Definition Time_Before (t u : Time) : bool := (t <? u)%Z.

(** ** Errors *)

(** Go errors are compared by identity.  The package-level sentinels are
    constructors of their own; a value made by a call of [errors.New] at a
    use site is [errors_New msg]; [DriverError] is any other error the
    database driver hands to GORM (closed connection, I/O error, constraint
    violation). *)
Inductive error : Type :=
  | ErrNotFound                      (* repository.ErrNotFound *)
  | ErrUserExists                    (* repository.ErrUserExists *)
  | ErrRecordNotFound                (* gorm.ErrRecordNotFound *)
  | errors_New (msg : string)
  | DriverError (msg : string).

Definition Error (e : error) : string :=
  match e with
  | ErrNotFound => "not found"
  | ErrUserExists => "user already exists"
  | ErrRecordNotFound => "record not found"
  | errors_New msg => msg
  | DriverError msg => msg
  end.

#[global] Instance error_eq_dec : EqDecision error.
Proof. solve_decision. Defined.

(** [errors.Is(err, target)] for the flat (unwrapped) errors of this
    program. *)
Definition errors_Is (err target : error) : bool := bool_decide (err = target).

(** ** Strings *)

Module Strings.

Definition bytes (s : string) : list ascii := list_ascii_of_string s.
Definition of_bytes (l : list ascii) : string := string_of_list_ascii l.

Definition b (n : nat) : ascii := ascii_of_nat n.

(** UTF-8 encodings of the code points for which [unicode.IsSpace] holds:
    the six ASCII ones, U+0085, U+00A0, U+1680, U+2000..U+200A, U+2028,
    U+2029, U+202F, U+205F and U+3000. *)
Definition space_runes : list (list ascii) :=
  [ [b 9]; [b 10]; [b 11]; [b 12]; [b 13]; [b 32];
    [b 194; b 133]; [b 194; b 160];
    [b 225; b 154; b 128];
    [b 226; b 128; b 128]; [b 226; b 128; b 129]; [b 226; b 128; b 130];
    [b 226; b 128; b 131]; [b 226; b 128; b 132]; [b 226; b 128; b 133];
    [b 226; b 128; b 134]; [b 226; b 128; b 135]; [b 226; b 128; b 136];
    [b 226; b 128; b 137]; [b 226; b 128; b 138];
    [b 226; b 128; b 168]; [b 226; b 128; b 169]; [b 226; b 128; b 175];
    [b 226; b 129; b 159];
    [b 227; b 128; b 128] ].

(** [strip p l] removes the prefix [p] from [l], when [l] starts with it. *)
Fixpoint strip (p l : list ascii) : option (list ascii) :=
  match p, l with
  | [], _ => Some l
  | _ :: _, [] => None
  | c :: p', d :: l' => if Ascii.eqb c d then strip p' l' else None
  end.

(** The rest of [l] after its first rune, when that rune is one of
    [runes]. *)
Fixpoint strip_any (runes : list (list ascii)) (l : list ascii)
  : option (list ascii) :=
  match runes with
  | [] => None
  | r :: rs =>
      match strip r l with
      | Some l' => Some l'
      | None => strip_any rs l
      end
  end.

(** [TrimLeftFunc(s, unicode.IsSpace)]: drop leading space runes one at a
    time; [n] bounds the number of runes dropped. *)
Fixpoint trim_left (runes : list (list ascii)) (n : nat) (l : list ascii)
  : list ascii :=
  match n with
  | O => l
  | S n' =>
      match strip_any runes l with
      | Some l' => trim_left runes n' l'
      | None => l
      end
  end.

Definition TrimLeftSpace (l : list ascii) : list ascii :=
  trim_left space_runes (length l) l.

(** Trailing runes are the leading runes of the reversed string, each read
    backwards. *)
Definition TrimRightSpace (l : list ascii) : list ascii :=
  rev (trim_left (map (@rev ascii) space_runes) (length l) (rev l)).

(** [strings.TrimSpace]: all leading and trailing white space removed, as
    defined by Unicode. *)
Definition TrimSpace (s : string) : string :=
  of_bytes (TrimRightSpace (TrimLeftSpace (bytes s))).

(** [strings.HasPrefix] and [strings.TrimPrefix]. *)
Definition HasPrefix (s p : string) : bool :=
  bool_decide (is_Some (strip (bytes p) (bytes s))).

Definition TrimPrefix (s p : string) : string :=
  match strip (bytes p) (bytes s) with
  | Some rest => of_bytes rest
  | None => s
  end.

(** [strings.ToLower].  Go lowers a string of ASCII bytes byte by byte and
    sends any other string through [unicode.ToLower] rune by rune; the
    Unicode case tables are not part of this repository, so that second
    path is the parameter [unicode_lower]. *)
Definition isASCII (l : list ascii) : bool :=
  forallb (fun c => Nat.ltb (nat_of_ascii c) 128) l.

Definition lower_byte (c : ascii) : ascii :=
  let n := nat_of_ascii c in
  if (Nat.leb 65 n && Nat.leb n 90)%bool then ascii_of_nat (n + 32) else c.

Definition ToLower (unicode_lower : string -> string) (s : string) : string :=
  if isASCII (bytes s) then of_bytes (map lower_byte (bytes s))
  else unicode_lower s.

End Strings.

(** ** internal/model *)

Record User : Type := mkUser {
  User_ID : string;
  User_Email : string;
  User_PasswordHash : string;
  User_CreatedAt : Time
}.

Record Board : Type := mkBoard {
  Board_ID : string;
  Board_Title : string;
  Board_CreatedAt : Time;
  Board_UpdatedAt : Time
}.

(** The zero values [model.User{}] and [model.Board{}]. *)
Definition zeroUser : User := mkUser "" "" "" zeroTime.
Definition zeroBoard : Board := mkBoard "" "" zeroTime zeroTime.

#[global] Instance User_eq_dec : EqDecision User.
Proof. solve_decision. Defined.
#[global] Instance Board_eq_dec : EqDecision Board.
Proof. solve_decision. Defined.

(** ** internal/repository: the interfaces *)

(** [UserRepository] and [BoardRepository] as method dictionaries over the
    implementation's state.  [Create] receives the identifier that
    [generateID()] returns and the instant that [time.Now()] returns;
    [Update] receives the instant. *)
Record UserRepository : Type := mkUserRepository {
  UR_state : Type;
  UR_Create : string -> string -> string -> Time -> UR_state ->
              UR_state * (User * option error);
  UR_GetByEmail : string -> UR_state -> User * option error;
  UR_GetByID : string -> UR_state -> User * option error
}.

Record BoardRepository : Type := mkBoardRepository {
  BR_state : Type;
  BR_Get : string -> BR_state -> Board * option error;
  BR_Create : string -> string -> Time -> BR_state ->
              BR_state * (Board * option error);
  BR_Update : string -> string -> Time -> BR_state ->
              BR_state * (Board * option error);
  BR_Delete : string -> BR_state -> BR_state * option error
}.

(** ** internal/repository/user.go: the in-memory user store *)

Record memUserRepo : Type := mkMemUserRepo {
  users : gmap string User;
  emailIdx : gmap string string
}.

Definition NewMemUserRepo : memUserRepo := mkMemUserRepo ∅ ∅.

Definition memUserRepo_Create (email password : string)
    (id : string) (now : Time) (r : memUserRepo)
  : memUserRepo * (User * option error) :=
  match emailIdx r !! email with
  | Some _ => (r, (zeroUser, Some ErrUserExists))
  | None =>
      let u := mkUser id email password now in
      (mkMemUserRepo (<[User_ID u := u]> (users r))
                     (<[email := User_ID u]> (emailIdx r)),
       (u, None))
  end.

Definition memUserRepo_GetByEmail (email : string) (r : memUserRepo)
  : User * option error :=
  match emailIdx r !! email with
  | None => (zeroUser, Some ErrNotFound)
  | Some id => (default zeroUser (users r !! id), None)
  end.

Definition memUserRepo_GetByID (id : string) (r : memUserRepo)
  : User * option error :=
  match users r !! id with
  | None => (zeroUser, Some ErrNotFound)
  | Some u => (u, None)
  end.

Definition MemUserRepo : UserRepository :=
  mkUserRepository memUserRepo
    memUserRepo_Create memUserRepo_GetByEmail memUserRepo_GetByID.

(** ** internal/repository/board.go: the in-memory board store *)

Record memBoardRepo : Type := mkMemBoardRepo {
  boards : gmap string Board
}.

Definition NewMemBoardRepo : memBoardRepo := mkMemBoardRepo ∅.

Definition memBoardRepo_Get (id : string) (r : memBoardRepo)
  : Board * option error :=
  match boards r !! id with
  | None => (zeroBoard, Some ErrNotFound)
  | Some b => (b, None)
  end.

Definition memBoardRepo_Create (title : string) (id : string) (now : Time)
    (r : memBoardRepo) : memBoardRepo * (Board * option error) :=
  let b := mkBoard id title now now in
  (mkMemBoardRepo (<[Board_ID b := b]> (boards r)), (b, None)).

Definition memBoardRepo_Update (id title : string) (now : Time)
    (r : memBoardRepo) : memBoardRepo * (Board * option error) :=
  match boards r !! id with
  | None => (r, (zeroBoard, Some ErrNotFound))
  | Some b =>
      let b := mkBoard (Board_ID b) title (Board_CreatedAt b) (Board_UpdatedAt b) in
      let b := mkBoard (Board_ID b) (Board_Title b) (Board_CreatedAt b) now in
      (mkMemBoardRepo (<[id := b]> (boards r)), (b, None))
  end.

Definition memBoardRepo_Delete (id : string) (r : memBoardRepo)
  : memBoardRepo * option error :=
  match boards r !! id with
  | None => (r, Some ErrNotFound)
  | Some _ => (mkMemBoardRepo (delete id (boards r)), None)
  end.

Definition MemBoardRepo : BoardRepository :=
  mkBoardRepository memBoardRepo
    memBoardRepo_Get memBoardRepo_Create memBoardRepo_Update memBoardRepo_Delete.

(** ** GORM over one SQLite table

    What the two SQLite stores use of [gorm.DB], over the table that
    [AutoMigrate] derives from the row struct: the rows, with the column
    named by the [primaryKey] tag as the only key.  [fault] is the state of
    the connection: [Some msg] is a handle whose every statement fails with
    the driver error [msg]. *)
Module gorm.
Section Table.
Context {Row : Type} (table : string) (pk : Row -> string).

Record DB : Type := mkDB {
  rows : list Row;
  fault : option string
}.

Inductive Query : Type :=
  | Found (r : Row)
  | Failed (e : error).

(** The row with the least primary key, as [ORDER BY id LIMIT 1] picks
    it. *)
Fixpoint least (l : list Row) : option Row :=
  match l with
  | [] => None
  | r :: l' =>
      match least l' with
      | None => Some r
      | Some r' => if String.leb (pk r) (pk r') then Some r else Some r'
      end
  end.

(** [db.First(&dest, cond)]: the first matching row in primary-key order,
    [ErrRecordNotFound] when none matches. *)
Definition First (cond : Row -> bool) (db : DB) : Query :=
  match fault db with
  | Some msg => Failed (DriverError msg)
  | None =>
      match least (List.filter cond (rows db)) with
      | Some r => Found r
      | None => Failed ErrRecordNotFound
      end
  end.

Definition has_pk (k : string) (l : list Row) : bool :=
  existsb (fun r => String.eqb (pk r) k) l.

(** [db.Create(&row)]: INSERT into [table]; the primary key, column [id],
    is the one uniqueness constraint of the table. *)
Definition Create (row : Row) (db : DB) : DB * option error :=
  match fault db with
  | Some msg => (db, Some (DriverError msg))
  | None =>
      if has_pk (pk row) (rows db)
      then (db, Some (DriverError ("UNIQUE constraint failed: " +:+ table +:+ ".id")))
      else (mkDB (rows db ++ [row]) None, None)
  end.

(** [db.Save(&row)]: UPDATE of all columns of the row with this primary
    key, INSERT when there is none. *)
Definition Save (row : Row) (db : DB) : DB * option error :=
  match fault db with
  | Some msg => (db, Some (DriverError msg))
  | None =>
      if has_pk (pk row) (rows db)
      then (mkDB (map (fun r => if String.eqb (pk r) (pk row) then row else r)
                      (rows db)) None, None)
      else (mkDB (rows db ++ [row]) None, None)
  end.

(** [db.Delete(&Row{}, cond)]: DELETE of the matching rows; the result is
    the new table, [RowsAffected] and [Error]. *)
Definition Delete (cond : Row -> bool) (db : DB) : DB * (Z * option error) :=
  match fault db with
  | Some msg => (db, (0%Z, Some (DriverError msg)))
  | None =>
      (mkDB (List.filter (fun r => negb (cond r)) (rows db)) None,
       (Z.of_nat (length (List.filter cond (rows db))), None))
  end.
End Table.
Arguments DB : clear implicits.
Arguments Query : clear implicits.
End gorm.

(** ** internal/repository/user_sqlite.go: the SQLite user store *)

Record userRow : Type := mkUserRow {
  userRow_ID : string;             (* gorm:"primary_key" *)
  userRow_Email : string;
  userRow_PasswordHash : string;
  userRow_CreatedAt : Time
}.

Definition sqliteUserRep : Type := gorm.DB userRow.

Definition sqliteUserRep_toModel (row : userRow) : User :=
  mkUser (userRow_ID row) (userRow_Email row)
         (userRow_PasswordHash row) (userRow_CreatedAt row).

Definition sqliteUserRep_Create (email passwordHash : string)
    (id : string) (now : Time) (r : sqliteUserRep)
  : sqliteUserRep * (User * option error) :=
  let rw := mkUserRow id email passwordHash now in
  match gorm.Create "user_rows" userRow_ID rw r with
  | (r', Some err) => (r', (zeroUser, Some err))
  | (r', None) => (r', (sqliteUserRep_toModel rw, None))
  end.

Definition sqliteUserRep_GetByEmail (email : string) (r : sqliteUserRep)
  : User * option error :=
  match gorm.First userRow_ID (fun rw => String.eqb (userRow_Email rw) email) r with
  | gorm.Failed err =>
      if errors_Is err ErrRecordNotFound then (zeroUser, Some ErrNotFound)
      else (zeroUser, None)
  | gorm.Found rw => (sqliteUserRep_toModel rw, None)
  end.

Definition sqliteUserRep_GetByID (id : string) (r : sqliteUserRep)
  : User * option error :=
  match gorm.First userRow_ID (fun rw => String.eqb (userRow_ID rw) id) r with
  | gorm.Failed err =>
      if errors_Is err ErrRecordNotFound then (zeroUser, Some ErrNotFound)
      else (zeroUser, Some err)
  | gorm.Found rw => (sqliteUserRep_toModel rw, None)
  end.

Definition SQLiteUserRepo : UserRepository :=
  mkUserRepository sqliteUserRep
    sqliteUserRep_Create sqliteUserRep_GetByEmail sqliteUserRep_GetByID.

(** ** internal/repository/user_sqlite.go: the SQLite board store *)

Record boardRow : Type := mkBoardRow {
  boardRow_ID : string;            (* gorm:"primaryKey" *)
  boardRow_Title : string;
  boardRow_CreatedAt : Time;
  boardRow_UpdatedAt : Time
}.

Definition sqliteBoardRepo : Type := gorm.DB boardRow.

Definition sqliteBoardRepo_toModel (row : boardRow) : Board :=
  mkBoard (boardRow_ID row) (boardRow_Title row)
          (boardRow_CreatedAt row) (boardRow_UpdatedAt row).

Definition by_id (id : string) (rw : boardRow) : bool :=
  String.eqb (boardRow_ID rw) id.

Definition sqliteBoardRepo_Get (id : string) (r : sqliteBoardRepo)
  : Board * option error :=
  match gorm.First boardRow_ID (by_id id) r with
  | gorm.Failed err =>
      if errors_Is err ErrRecordNotFound then (zeroBoard, Some ErrNotFound)
      else (zeroBoard, Some err)
  | gorm.Found rw => (sqliteBoardRepo_toModel rw, None)
  end.

Definition sqliteBoardRepo_Create (title : string) (id : string) (now : Time)
    (r : sqliteBoardRepo) : sqliteBoardRepo * (Board * option error) :=
  let rw := mkBoardRow id title now now in
  match gorm.Create "board_rows" boardRow_ID rw r with
  | (r', Some err) => (r', (zeroBoard, Some err))
  | (r', None) => (r', (sqliteBoardRepo_toModel rw, None))
  end.

Definition sqliteBoardRepo_Update (id title : string) (now : Time)
    (r : sqliteBoardRepo) : sqliteBoardRepo * (Board * option error) :=
  match gorm.First boardRow_ID (by_id id) r with
  | gorm.Failed err =>
      if errors_Is err ErrRecordNotFound then (r, (zeroBoard, Some ErrNotFound))
      else (r, (zeroBoard, Some err))
  | gorm.Found rw =>
      let rw := mkBoardRow (boardRow_ID rw) title
                           (boardRow_CreatedAt rw) (boardRow_UpdatedAt rw) in
      let rw := mkBoardRow (boardRow_ID rw) (boardRow_Title rw)
                           (boardRow_CreatedAt rw) now in
      match gorm.Save boardRow_ID rw r with
      | (r', Some err) => (r', (zeroBoard, Some err))
      | (r', None) => (r', (sqliteBoardRepo_toModel rw, None))
      end
  end.

Definition sqliteBoardRepo_Delete (id : string) (r : sqliteBoardRepo)
  : sqliteBoardRepo * option error :=
  match gorm.Delete (by_id id) r with
  | (r', (_, Some err)) => (r', Some err)
  | (r', (affected, None)) =>
      if (affected =? 0)%Z then (r', Some ErrNotFound) else (r', None)
  end.

Definition SQLiteBoardRepo : BoardRepository :=
  mkBoardRepository sqliteBoardRepo
    sqliteBoardRepo_Get sqliteBoardRepo_Create sqliteBoardRepo_Update
    sqliteBoardRepo_Delete.

(** ** The libraries behind the auth service

    bcrypt and the JWT codec are external collaborators; the services are
    written against the calls they make.  [bcrypt_Generate password salt] is
    [bcrypt.GenerateFromPassword([]byte(password), bcrypt.DefaultCost)] with
    the salt it draws; [bcrypt_Compare hash password] is
    [bcrypt.CompareHashAndPassword]. *)
Record Bcrypt : Type := mkBcrypt {
  bcrypt_Generate : string -> string -> string * option error;
  bcrypt_Compare : string -> string -> option error
}.

(** [jwt.NumericDate] of golang-jwt/jwt/v5: a JSON numeric date.  The
    library's [NewNumericDate(t)] returns [t.Truncate(TimePrecision)], and
    [TimePrecision] is [time.Second] unless a program sets it (this one does
    not), so a NumericDate is a whole number of seconds since the epoch;
    decoding a token rounds to the same precision. *)
Definition NumericDate := Z.

Definition NewNumericDate (t : Time) : NumericDate := (t / Second)%Z.
Definition NumericDate_Time (d : NumericDate) : Time := (d * Second)%Z.

(** The fields of [jwt.RegisteredClaims] that the program sets or the
    default validator reads. *)
Record RegisteredClaims : Type := mkRegisteredClaims {
  Issuer : string;
  Subject : string;
  ExpiresAt : option NumericDate;
  NotBefore : option NumericDate;
  IssuedAt : option NumericDate
}.

(** [customClaims] of the service and [CustomClaims] of the middleware
    (the same struct, declared in both packages). *)
Record customClaims : Type := mkCustomClaims {
  Email : string;
  Registered : RegisteredClaims
}.

#[global] Instance RegisteredClaims_eq_dec : EqDecision RegisteredClaims.
Proof. solve_decision. Defined.
#[global] Instance customClaims_eq_dec : EqDecision customClaims.
Proof. solve_decision. Defined.

(** The compact encoding and the HMAC-SHA256 signature:
    [jwt_SignedString secret claims] is
    [jwt.NewWithClaims(jwt.SigningMethodHS256, claims).SignedString(secret)];
    [jwt_ParseSigned raw secret] is the first half of [jwt.ParseWithClaims]:
    split the three segments, decode header and claims, check the algorithm
    and verify the signature with the key the key function returns. *)
Record JWT : Type := mkJWT {
  jwt_SignedString : string -> customClaims -> string * option error;
  jwt_ParseSigned : string -> string -> error + customClaims
}.

(** The second half of [jwt.ParseWithClaims], the default validator on the
    decoded claims: [exp] must be after now, [nbf] must not be after now;
    [iat] is not checked unless asked for. *)
Definition Validate (c : RegisteredClaims) (now : Time) : bool :=
  match ExpiresAt c with
  | Some exp => Time_Before now (NumericDate_Time exp)
  | None => true
  end
  &&
  match NotBefore c with
  | Some nbf => negb (Time_Before now (NumericDate_Time nbf))
  | None => true
  end.

Record Token : Type := mkToken {
  Claims : customClaims;
  Valid : bool
}.

Definition zeroClaims : customClaims :=
  mkCustomClaims "" (mkRegisteredClaims "" "" None None None).

Definition ErrTokenInvalidClaims : error := errors_New "token has invalid claims".

Definition jwt_ParseWithClaims (J : JWT) (raw secret : string) (now : Time)
  : Token * option error :=
  match jwt_ParseSigned J raw secret with
  | inl err => (mkToken zeroClaims false, Some err)
  | inr c =>
      if Validate (Registered c) now then (mkToken c true, None)
      else (mkToken c false, Some ErrTokenInvalidClaims)
  end.

(** ** internal/service *)

Section Service.
Context (unicode_lower : string -> string) (B : Bcrypt) (J : JWT).

(** *** board.go *)
Section boardService.
Context (repo : BoardRepository).

Definition boardService_GetBoard (id : string) (st : BR_state repo)
  : Board * option error :=
  BR_Get repo id st.

Definition boardService_CreateBoard (title : string)
    (id : string) (now : Time) (st : BR_state repo)
  : BR_state repo * (Board * option error) :=
  let title := Strings.TrimSpace title in
  if String.eqb title "" then (st, (zeroBoard, Some (errors_New "title required")))
  else BR_Create repo title id now st.

Definition boardService_UpdateBoard (id title : string)
    (now : Time) (st : BR_state repo)
  : BR_state repo * (Board * option error) :=
  let title := Strings.TrimSpace title in
  if String.eqb title "" then (st, (zeroBoard, Some (errors_New "title required")))
  else BR_Update repo id title now st.

Definition boardService_DeleteBoard (id : string) (st : BR_state repo)
  : BR_state repo * option error :=
  BR_Delete repo id st.
End boardService.

(** *** auth.go *)
Section authService.
Context (users : UserRepository).

(** The configuration fields of [authService]; the [users] field is the
    repository state threaded through the methods. *)
Record authService : Type := mkAuthService {
  jwtSecret : string;
  tokenTTL : Duration
}.

(** The claims that [issueToken] builds for [u] at [now]. *)
Definition issueToken_claims (s : authService) (u : User) (now : Time)
  : customClaims :=
  mkCustomClaims (User_Email u)
    (mkRegisteredClaims
       "kanban_api"
       (User_ID u)
       (Some (NewNumericDate (Time_Add now (tokenTTL s))))
       None
       (Some (NewNumericDate now))).

Definition authService_issueToken (s : authService) (u : User) (now : Time)
  : string * option error :=
  let claims := issueToken_claims s u now in
  jwt_SignedString J (jwtSecret s) claims.

(** [salt], [id] and [created] are what bcrypt, [generateID()] and the
    repository's [time.Now()] produce during the call; [now] is the
    [time.Now()] of [issueToken]. *)
Definition authService_Register (s : authService) (email password : string)
    (salt id : string) (created now : Time) (st : UR_state users)
  : UR_state users * (User * string * option error) :=
  let email := Strings.TrimSpace (Strings.ToLower unicode_lower email) in
  if (String.eqb email "" || String.eqb password "")%bool
  then (st, (zeroUser, "", Some (errors_New "email and password required")))
  else
    match bcrypt_Generate B password salt with
    | (_, Some err) => (st, (zeroUser, "", Some err))
    | (hash, None) =>
        match UR_Create users email hash id created st with
        | (st', (_, Some err)) => (st', (zeroUser, "", Some err))
        | (st', (u, None)) =>
            let '(tok, err) := authService_issueToken s u now in
            (st', (u, tok, err))
        end
    end.

Definition authService_Login (s : authService) (email password : string)
    (now : Time) (st : UR_state users)
  : User * string * option error :=
  let email := Strings.TrimSpace (Strings.ToLower unicode_lower email) in
  match UR_GetByEmail users email st with
  | (_, Some _) => (zeroUser, "", Some (errors_New "invalid credentials"))
  | (u, None) =>
      match bcrypt_Compare B (User_PasswordHash u) password with
      | Some _ => (zeroUser, "", Some (errors_New "invalid credentials"))
      | None =>
          let '(tok, err) := authService_issueToken s u now in
          (u, tok, err)
      end
  end.
End authService.
End Service.

(** ** HTTP responses *)

#[warnings="-register-all"]
Inductive JSON : Type :=
  | JStr (s : string)
  | JTime (t : Time)
  | JObj (fields : list (string * JSON)).

Record Response : Type := mkResponse {
  status : Z;
  body : option JSON
}.

Definition StatusOK : Z := 200.
Definition StatusCreated : Z := 201.
Definition StatusNoContent : Z := 204.
Definition StatusBadRequest : Z := 400.
Definition StatusUnauthorized : Z := 401.
Definition StatusNotFound : Z := 404.

(** [c.JSON(code, obj)] *)
Definition c_JSON (code : Z) (obj : JSON) : Response := mkResponse code (Some obj).

Definition Board_JSON (b : Board) : JSON :=
  JObj [("id", JStr (Board_ID b)); ("title", JStr (Board_Title b));
        ("createdAt", JTime (Board_CreatedAt b));
        ("updatedAt", JTime (Board_UpdatedAt b))].

(** ** internal/middleware/auth.go *)

(** What the middleware does to the request: abort with a response, or set
    context keys and call the next handler. *)
Inductive Outcome : Type :=
  | AbortWithStatusJSON (code : Z) (obj : JSON)
  | Next (keys : list (string * string)).

(** [authz] is [c.GetHeader("Authorization")] ([""] when the header is
    absent), [now] the instant at which the token is validated. *)
Definition AuthRequired (J : JWT) (secret : string) (authz : string) (now : Time)
  : Outcome :=
  if negb (Strings.HasPrefix authz "Bearer ")
  then AbortWithStatusJSON StatusUnauthorized
         (JObj [("error", JStr "missing bearer token")])
  else
    let raw := Strings.TrimPrefix authz "Bearer " in
    match jwt_ParseWithClaims J raw secret now with
    | (tok, err) =>
        if (bool_decide (err <> None) || negb (Valid tok))%bool
        then AbortWithStatusJSON StatusUnauthorized
               (JObj [("error", JStr "invalid token")])
        else
          let claims := Claims tok in
          Next [("userID", Subject (Registered claims)); ("email", Email claims)]
    end.

(** ** internal/http *)

Section Handlers.
Context (unicode_lower : string -> string) (B : Bcrypt) (J : JWT).

(** *** auth_handler.go.  [req] is what [ShouldBindJSON] decodes: [None]
    when the body does not bind, else the email and password fields. *)
Definition AuthHandler_login (users : UserRepository) (svc : authService)
    (req : option (string * string)) (now : Time) (st : UR_state users)
  : Response :=
  match req with
  | None => c_JSON StatusBadRequest (JObj [("error", JStr "invalid body")])
  | Some (email, password) =>
      match authService_Login unicode_lower B J users svc email password now st with
      | (_, _, Some _) =>
          c_JSON StatusUnauthorized (JObj [("error", JStr "invalid credentials")])
      | (u, token, None) =>
          c_JSON StatusOK
            (JObj [("data",
               JObj [("user", JObj [("id", JStr (User_ID u));
                                    ("email", JStr (User_Email u));
                                    ("createdAt", JTime (User_CreatedAt u))]);
                     ("token", JStr token)])])
      end
  end.

(** *** board_handler.go.  [id] is [c.Param("id")], [req] the decoded
    title ([None] when the body does not bind). *)
Section BoardHandler.
Context (repo : BoardRepository).

Definition BoardHandler_create (req : option string)
    (newid : string) (now : Time) (st : BR_state repo)
  : BR_state repo * Response :=
  match req with
  | None => (st, c_JSON StatusBadRequest (JObj [("error", JStr "invalid body")]))
  | Some title =>
      match boardService_CreateBoard repo title newid now st with
      | (st', (_, Some err)) =>
          (st', c_JSON StatusBadRequest (JObj [("error", JStr (Error err))]))
      | (st', (b, None)) =>
          (st', c_JSON StatusCreated (JObj [("data", Board_JSON b)]))
      end
  end.

Definition BoardHandler_get (id : string) (st : BR_state repo) : Response :=
  match boardService_GetBoard repo id st with
  | (_, Some _) => c_JSON StatusNotFound (JObj [("error", JStr "not found")])
  | (b, None) => c_JSON StatusOK (JObj [("data", Board_JSON b)])
  end.

Definition BoardHandler_update (id : string) (req : option string)
    (now : Time) (st : BR_state repo)
  : BR_state repo * Response :=
  match req with
  | None => (st, c_JSON StatusBadRequest (JObj [("error", JStr "invalid body")]))
  | Some title =>
      match boardService_UpdateBoard repo id title now st with
      | (st', (_, Some err)) =>
          (st', c_JSON StatusBadRequest (JObj [("error", JStr (Error err))]))
      | (st', (b, None)) =>
          (st', c_JSON StatusOK (JObj [("data", Board_JSON b)]))
      end
  end.

Definition BoardHandler_delete (id : string) (st : BR_state repo)
  : BR_state repo * Response :=
  match boardService_DeleteBoard repo id st with
  | (st', Some err) =>
      (st', c_JSON StatusNotFound (JObj [("error", JStr (Error err))]))
  | (st', None) => (st', mkResponse StatusNoContent None)
  end.
End BoardHandler.
End Handlers.


(** ** Stand-ins for the libraries

    Executable instances of [Bcrypt] and [JWT] on which the statements below
    are run at concrete inputs.  They keep everything in the clear: the
    "hash" is the password behind the salt, the "signature" is the key.
    Like bcrypt, [clear_bcrypt] refuses a password of more than 72 bytes;
    like the parser, [clear_jwt] takes the three HMAC methods. *)

Definition ErrMismatchedHashAndPassword : error :=
  errors_New "crypto/bcrypt: hashedPassword is not the hash of the given password".

Definition ErrPasswordTooLong : error :=
  errors_New "bcrypt: password length exceeds 72 bytes".

Definition clear_bcrypt : Bcrypt :=
  mkBcrypt
    (fun password salt =>
       if Nat.ltb 72 (String.length password) then ("", Some ErrPasswordTooLong)
       else (salt +:+ "$" +:+ password, None))
    (fun hash password =>
       match rev (Strings.bytes hash), rev (Strings.bytes ("$" +:+ password)) with
       | h, p => if bool_decide (is_Some (Strings.strip p h)) then None
                 else Some ErrMismatchedHashAndPassword
       end).

Fixpoint split_on (sep : ascii) (s : string) : list string :=
  match s with
  | EmptyString => [EmptyString]
  | String c s' =>
      if Ascii.eqb c sep then EmptyString :: split_on sep s'
      else match split_on sep s' with
           | [] => [String c EmptyString]
           | w :: ws => String c w :: ws
           end
  end.

Definition show_date (d : option NumericDate) : string :=
  match d with
  | None => ""
  | Some z => DecimalString.NilEmpty.string_of_int (Z.to_int z)
  end.

Definition read_date (s : string) : option (option NumericDate) :=
  if String.eqb s "" then Some None
  else match DecimalString.NilEmpty.int_of_string s with
       | Some i => Some (Some (Z.of_int i))
       | None => None
       end.

Definition ErrTokenMalformed : error := errors_New "token is malformed".
Definition ErrTokenSignatureInvalid : error := errors_New "signature is invalid".

Definition clear_jwt : JWT :=
  mkJWT
    (fun secret c =>
       let r := Registered c in
       ("HS256|" +:+ Email c +:+ "|" +:+ Issuer r +:+ "|" +:+ Subject r +:+ "|"
          +:+ show_date (ExpiresAt r) +:+ "|" +:+ show_date (NotBefore r) +:+ "|"
          +:+ show_date (IssuedAt r) +:+ "|" +:+ secret, None))
    (fun raw secret =>
       match split_on "|"%char raw with
       | [alg; email; iss; sub; exp; nbf; iat; sig] =>
           match read_date exp, read_date nbf, read_date iat with
           | Some exp, Some nbf, Some iat =>
               if negb (String.eqb alg "HS256" || String.eqb alg "HS384"
                        || String.eqb alg "HS512")%bool
               then inl ErrTokenMalformed
               else if negb (String.eqb sig secret) then inl ErrTokenSignatureInvalid
               else inr (mkCustomClaims email (mkRegisteredClaims iss sub exp nbf iat))
           | _, _, _ => inl ErrTokenMalformed
           end
       | _ => inl ErrTokenMalformed
       end).

(** The non-ASCII path of [ToLower] for the examples, which use ASCII
    addresses only. *)
Definition no_unicode_lower (s : string) : string := s.


(** ** The token parser of golang-jwt/jwt/v5, step by step

    What [jwt.ParseWithClaims] does before it validates the claims, with
    the text codecs and the MAC as parameters: base64 (raw URL) of a
    segment, the JSON of the header and of the claims, and HMAC under a
    hash.  The middleware's key function returns the secret whatever the
    token's method is, and the parser is built without [WithValidMethods],
    so the method is the one the token's own header names. *)

Inductive HashAlg : Type := SHA256 | SHA384 | SHA512.

(** The methods the library registers: the three HMAC ones, and the ones
    that cannot verify with a [[]byte] key (the RSA, ECDSA and Ed25519
    methods want a public key, [none] its own marker). *)
Inductive SigningMethod : Type :=
  | SigningMethodHMAC (hash : HashAlg)
  | SigningMethodOther.

Definition GetSigningMethod (alg : string) : option SigningMethod :=
  if String.eqb alg "HS256" then Some (SigningMethodHMAC SHA256)
  else if String.eqb alg "HS384" then Some (SigningMethodHMAC SHA384)
  else if String.eqb alg "HS512" then Some (SigningMethodHMAC SHA512)
  else if existsb (String.eqb alg)
            ["RS256"; "RS384"; "RS512"; "PS256"; "PS384"; "PS512";
             "ES256"; "ES384"; "ES512"; "EdDSA"; "none"]
       then Some SigningMethodOther
  else None.

Record Encoding : Type := mkEncoding {
  EncodeSegment : string -> string;
  DecodeSegment : string -> option string;
  (* the JSON of the header {"alg": alg, "typ": "JWT"}; of a text that
     unmarshals as a header, its [alg] string if it has one *)
  header_json : string -> string;
  header_alg : string -> option (option string);
  (* the JSON of the claims, and the claims that unmarshal from a JSON text *)
  claims_json : customClaims -> string;
  claims_of_json : string -> option customClaims;
  hmac : HashAlg -> string -> string -> string
}.

Definition ErrTokenUnverifiable : error := errors_New "token is unverifiable".

(** [Token.SignedString(key)] of [NewWithClaims(SigningMethodHS256, c)]. *)
Definition jwt5_SignedString (E : Encoding) (secret : string) (c : customClaims)
  : string * option error :=
  let sstr := EncodeSegment E (header_json E "HS256") +:+ "."
              +:+ EncodeSegment E (claims_json E c) in
  (sstr +:+ "." +:+ EncodeSegment E (hmac E SHA256 secret sstr), None).

(** [token.Method.Verify(signingString, sig, key)] with the [[]byte] key
    the middleware's key function returns. *)
Definition Verify (E : Encoding) (m : SigningMethod)
    (signingString sig key : string) : bool :=
  match m with
  | SigningMethodHMAC hash => String.eqb sig (hmac E hash key signingString)
  | SigningMethodOther => false
  end.

(** [ParseUnverified] (three segments, header, claims, method), then the
    signature segment and [token.Method.Verify] with the key. *)
Definition jwt5_ParseSigned (E : Encoding) (raw secret : string)
  : error + customClaims :=
  match split_on "."%char raw with
  | [h; p; sg] =>
      match DecodeSegment E h with
      | None => inl ErrTokenMalformed
      | Some hj =>
          match header_alg E hj with
          | None => inl ErrTokenMalformed
          | Some alg =>
              match DecodeSegment E p with
              | None => inl ErrTokenMalformed
              | Some cj =>
                  match claims_of_json E cj with
                  | None => inl ErrTokenMalformed
                  | Some c =>
                      match alg with
                      | None => inl ErrTokenUnverifiable
                      | Some alg =>
                          match GetSigningMethod alg with
                          | None => inl ErrTokenUnverifiable
                          | Some m =>
                              match DecodeSegment E sg with
                              | None => inl ErrTokenMalformed
                              | Some sig =>
                                  if Verify E m (h +:+ "." +:+ p) sig secret
                                  then inr c
                                  else inl ErrTokenSignatureInvalid
                              end
                          end
                      end
                  end
              end
          end
      end
  | _ => inl ErrTokenMalformed
  end.

Definition jwt5 (E : Encoding) : JWT :=
  mkJWT (jwt5_SignedString E) (jwt5_ParseSigned E).

(** The tokens that pass the parser under [secret]: three segments that
    decode, a header naming an HMAC method, claims that unmarshal to [c], and
    a signature that is that method's MAC of the first two segments. *)
Definition jwt5_accepts (E : Encoding) (secret raw : string) (c : customClaims)
  : Prop :=
  exists h p sg hj alg hash cj sig,
    split_on "."%char raw = [h; p; sg] /\
    DecodeSegment E h = Some hj /\
    header_alg E hj = Some (Some alg) /\
    GetSigningMethod alg = Some (SigningMethodHMAC hash) /\
    DecodeSegment E p = Some cj /\
    claims_of_json E cj = Some c /\
    DecodeSegment E sg = Some sig /\
    sig = hmac E hash secret (h +:+ "." +:+ p).

(** A stand-in [Encoding] for the examples: segments in hexadecimal, the
    header and the claims as plain fields, the MAC in the clear. *)
Definition hex_digits : list ascii :=
  ["0"; "1"; "2"; "3"; "4"; "5"; "6"; "7"; "8"; "9"; "a"; "b"; "c"; "d"; "e"; "f"]%char.

Fixpoint hex_value_in (l : list ascii) (c : ascii) : option nat :=
  match l with
  | [] => None
  | d :: l' => if Ascii.eqb c d then Some O
               else match hex_value_in l' c with Some n => Some (S n) | None => None end
  end.

Fixpoint hex_encode (s : string) : string :=
  match s with
  | EmptyString => EmptyString
  | String c s' =>
      let n := nat_of_ascii c in
      String (nth (n / 16) hex_digits "0"%char)
        (String (nth (n mod 16) hex_digits "0"%char) (hex_encode s'))
  end.

Fixpoint hex_decode (s : string) : option string :=
  match s with
  | EmptyString => Some EmptyString
  | String a (String b s') =>
      match hex_value_in hex_digits a, hex_value_in hex_digits b, hex_decode s' with
      | Some x, Some y, Some r => Some (String (ascii_of_nat (16 * x + y)) r)
      | _, _, _ => None
      end
  | String _ EmptyString => None
  end.

Definition hash_name (h : HashAlg) : string :=
  match h with SHA256 => "sha256" | SHA384 => "sha384" | SHA512 => "sha512" end.

Definition clear_encoding : Encoding :=
  mkEncoding
    hex_encode hex_decode
    (fun alg => "alg=" +:+ alg)
    (fun j => match Strings.strip (Strings.bytes "alg=") (Strings.bytes j) with
              | Some rest => Some (Some (Strings.of_bytes rest))
              | None => if String.eqb j "" then Some None else None
              end)
    (fun c =>
       let r := Registered c in
       Email c +:+ "|" +:+ Issuer r +:+ "|" +:+ Subject r +:+ "|"
         +:+ show_date (ExpiresAt r) +:+ "|" +:+ show_date (NotBefore r) +:+ "|"
         +:+ show_date (IssuedAt r))
    (fun j =>
       match split_on "|"%char j with
       | [email; iss; sub; exp; nbf; iat] =>
           match read_date exp, read_date nbf, read_date iat with
           | Some exp, Some nbf, Some iat =>
               Some (mkCustomClaims email (mkRegisteredClaims iss sub exp nbf iat))
           | _, _, _ => None
           end
       | _ => None
       end)
    (fun h key msg => hash_name h +:+ ":" +:+ key +:+ ":" +:+ msg).

(** ** The rest of the handlers, stores and start-up code *)

(** [strings.Contains(s, sub)]: [sub] occurs in [s] at some offset. *)
Fixpoint Contains_bytes (sub l : list ascii) {struct l} : bool :=
  match Strings.strip sub l with
  | Some _ => true
  | None =>
      match l with
      | [] => false
      | _ :: l' => Contains_bytes sub l'
      end
  end.

Definition strings_Contains (s sub : string) : bool :=
  Contains_bytes (Strings.bytes sub) (Strings.bytes s).

Definition StatusConflict : Z := 409.

(** [AuthHandler.register]; [req] is what [ShouldBindJSON] decodes, the
    other arguments are those of [authService.Register]. *)
Definition AuthHandler_register (unicode_lower : string -> string)
    (B : Bcrypt) (J : JWT) (users : UserRepository) (svc : authService)
    (req : option (string * string)) (salt id : string) (created now : Time)
    (st : UR_state users) : UR_state users * Response :=
  match req with
  | None => (st, c_JSON StatusBadRequest (JObj [("error", JStr "invalid body")]))
  | Some (email, password) =>
      match authService_Register unicode_lower B J users svc email password
              salt id created now st with
      | (st', (_, _, Some err)) =>
          let msg := Error err in
          if strings_Contains msg "exists"
          then (st', c_JSON StatusConflict (JObj [("error", JStr msg)]))
          else (st', c_JSON StatusBadRequest (JObj [("error", JStr msg)]))
      | (st', (u, token, None)) =>
          (st', c_JSON StatusCreated
             (JObj [("data",
                JObj [("user", JObj [("id", JStr (User_ID u));
                                     ("email", JStr (User_Email u));
                                     ("createdAt", JTime (User_CreatedAt u))]);
                      ("token", JStr token)])]))
      end
  end.

(** [service.MustJWTSecret]; [env] is [os.Getenv("JWT_SECRET")], empty when
    the variable is not set. *)
Definition MustJWTSecret (env : string) : string :=
  if String.eqb env "" then "dev-secret" else env.

(** [memBoardRepo.List].  Go ranges over a map in an order it does not
    specify; the boards are listed here in the order in which the finite map
    enumerates them, and what is stated of the list does not depend on the
    order. *)
Definition memBoardRepo_List (r : memBoardRepo) : list Board * option error :=
  ((map_to_list (boards r)).*2, None).

(** [sqliteBoardRepo.List]: [Order("created_at desc").Find(&rows)], each row
    converted by [toModel].  Rows created at the same instant come in the
    order the sort leaves them. *)
Definition created_desc (a b : boardRow) : Prop :=
  (boardRow_CreatedAt b <= boardRow_CreatedAt a)%Z.

#[global] Instance created_desc_dec : RelDecision created_desc.
Proof. intros a b. unfold created_desc. apply _. Defined.

Definition sqliteBoardRepo_List (r : sqliteBoardRepo) : list Board * option error :=
  match gorm.fault r with
  | Some msg => ([], Some (DriverError msg))
  | None =>
      (map sqliteBoardRepo_toModel (merge_sort created_desc (gorm.rows r)), None)
  end.

(** A route of the group that [main] builds with
    [r.Group("api/v1", middleware.AuthRequired(jwtSecret))]: the middleware
    first, then the route's handler unless the middleware aborted. *)
Definition private_route {St : Type} (J : JWT) (secret authz : string)
    (now : Time) (handler : St -> St * Response) (st : St) : St * Response :=
  match AuthRequired J secret authz now with
  | AbortWithStatusJSON code obj => (st, c_JSON code obj)
  | Next _ => handler st
  end.

(** The states of the in-memory user store when every [generateID()] is
    new to the store. *)
Inductive memUserRepo_reachable_fresh : memUserRepo -> Prop :=
  | fresh_NewMemUserRepo : memUserRepo_reachable_fresh NewMemUserRepo
  | fresh_memUserRepo_Create r email password id now :
      memUserRepo_reachable_fresh r ->
      users r !! id = None ->
      memUserRepo_reachable_fresh (memUserRepo_Create email password id now r).1.

(** The states the in-memory board store reaches through the board service
    while the clock does not run backwards; the index is the latest
    [time.Now()] read so far. *)
Inductive boards_reachable : Time -> memBoardRepo -> Prop :=
  | boards_New t : boards_reachable t NewMemBoardRepo
  | boards_CreateBoard t r title id now :
      boards_reachable t r -> (t <= now)%Z ->
      boards_reachable now
        (boardService_CreateBoard MemBoardRepo title id now r).1
  | boards_UpdateBoard t r id title now :
      boards_reachable t r -> (t <= now)%Z ->
      boards_reachable now
        (boardService_UpdateBoard MemBoardRepo id title now r).1
  | boards_DeleteBoard t r id :
      boards_reachable t r ->
      boards_reachable t (boardService_DeleteBoard MemBoardRepo id r).1.

(** The tables the SQLite board store reaches from the empty table on a
    working connection. *)
Inductive board_rows_reachable : list boardRow -> Prop :=
  | board_rows_empty : board_rows_reachable []
  | board_rows_Create tbl title id now :
      board_rows_reachable tbl ->
      board_rows_reachable
        (gorm.rows (sqliteBoardRepo_Create title id now (gorm.mkDB tbl None)).1)
  | board_rows_Update tbl id title now :
      board_rows_reachable tbl ->
      board_rows_reachable
        (gorm.rows (sqliteBoardRepo_Update id title now (gorm.mkDB tbl None)).1)
  | board_rows_Delete tbl id :
      board_rows_reachable tbl ->
      board_rows_reachable
        (gorm.rows (sqliteBoardRepo_Delete id (gorm.mkDB tbl None)).1).


(** What [main] wires together: the secret it reads once, the auth service
    it builds with that secret and a TTL of 24 hours, and the middleware of
    the private group, built with the same secret. *)
Definition main_jwtSecret (env : string) : string := MustJWTSecret env.

Definition main_authSvc (env : string) : authService :=
  mkAuthService (main_jwtSecret env) (24 * Hour)%Z.

Definition main_private {St : Type} (J : JWT) (env authz : string) (now : Time)
    (handler : St -> St * Response) (st : St) : St * Response :=
  private_route J (main_jwtSecret env) authz now handler st.

(** ** Vocabulary of the statements *)

(** A string made of runes of [runes] only. *)
Inductive spaces (runes : list (list ascii)) : list ascii -> Prop :=
  | spaces_nil : spaces runes []
  | spaces_cons r l : In r runes -> spaces runes l -> spaces runes (r ++ l).

(** The states a store reaches from its constructor by calls of its
    methods, whatever their arguments. *)
Inductive memUserRepo_reachable : memUserRepo -> Prop :=
  | reach_NewMemUserRepo : memUserRepo_reachable NewMemUserRepo
  | reach_memUserRepo_Create r email password id now :
      memUserRepo_reachable r ->
      memUserRepo_reachable (memUserRepo_Create email password id now r).1.

(** What the board store promises of [Update], observed through [Get]:
    [NotFound] and no change when [Get] finds nothing; otherwise the stored
    board with the new title and [UpdatedAt], which [Get] then returns, and
    every other identifier reads as before. *)
Definition Update_contract (R : BoardRepository) (st : BR_state R) : Prop :=
  forall id title now,
    match BR_Get R id st with
    | (_, Some _) => BR_Update R id title now st = (st, (zeroBoard, Some ErrNotFound))
    | (b, None) =>
        let b' := mkBoard (Board_ID b) title (Board_CreatedAt b) now in
        exists st',
          BR_Update R id title now st = (st', (b', None)) /\
          BR_Get R id st' = (b', None) /\
          forall j, j <> id -> BR_Get R j st' = BR_Get R j st
    end.

(** What the board store promises of [Delete], observed through [Get]. *)
Definition Delete_contract (R : BoardRepository) (st : BR_state R) : Prop :=
  forall id,
    (forall b err, BR_Get R id st = (b, Some err) ->
       BR_Delete R id st = (st, Some ErrNotFound)) /\
    (forall st', BR_Delete R id st = (st', None) ->
       BR_Get R id st' = (zeroBoard, Some ErrNotFound)) /\
    (forall b, BR_Get R id st = (b, None) ->
       exists st', BR_Delete R id st = (st', None)).

(** The secondary index stays consistent with the primary map: every stored
    user sits under its own ID and its email indexes that ID. *)
Definition index_consistent (r : memUserRepo) : Prop :=
  forall id u, users r !! id = Some u ->
    User_ID u = id /\ emailIdx r !! User_Email u = Some id.

(** The email under which the auth service talks to the store. *)
Definition normalized (unicode_lower : string -> string) (email : string) : string :=
  Strings.TrimSpace (Strings.ToLower unicode_lower email).

(** Two identifiers as [generateID()] returns them, for the examples. *)
Definition uuid1 : string := "0b0e1c5a-5f0b-4c57-9d1c-0d2f3f0a1b11".
Definition uuid2 : string := "7c9e6679-7425-40de-944b-e07fc1f90ae7".

(** * Properties *)

(** ** Strings *)

Lemma of_bytes_bytes (s : string) : Strings.of_bytes (Strings.bytes s) = s.
Proof. apply string_of_list_ascii_of_string. Qed.

Lemma bytes_of_bytes (l : list ascii) : Strings.bytes (Strings.of_bytes l) = l.
Proof. apply list_ascii_of_string_of_list_ascii. Qed.

Lemma bytes_append (s t : string) :
  Strings.bytes (s +:+ t) = Strings.bytes s ++ Strings.bytes t.
Proof.
  induction s as [|c s IH]; simpl; [reflexivity|].
  unfold Strings.bytes in *. simpl. now rewrite IH.
Qed.

Lemma strip_Some (p l l' : list ascii) :
  Strings.strip p l = Some l' <-> l = p ++ l'.
Proof.
  revert l. induction p as [|c p IH]; intros l; simpl.
  - split; congruence.
  - destruct l as [|d l]; [split; discriminate|].
    destruct (Ascii.eqb_spec c d) as [->|Hne].
    + rewrite IH. split; congruence.
    + split; [discriminate|]. intros [= -> _]. now destruct Hne.
Qed.

Lemma strip_app (p l : list ascii) : Strings.strip p (p ++ l) = Some l.
Proof. now apply strip_Some. Qed.

Lemma HasPrefix_append (p s : string) : Strings.HasPrefix (p +:+ s) p = true.
Proof.
  unfold Strings.HasPrefix. rewrite bytes_append, strip_app.
  apply bool_decide_eq_true. eauto.
Qed.

Lemma TrimPrefix_append (p s : string) : Strings.TrimPrefix (p +:+ s) p = s.
Proof.
  unfold Strings.TrimPrefix. rewrite bytes_append, strip_app.
  apply of_bytes_bytes.
Qed.

Lemma HasPrefix_true (s p : string) :
  Strings.HasPrefix s p = true <-> exists t, s = p +:+ t.
Proof.
  unfold Strings.HasPrefix. rewrite bool_decide_eq_true. split.
  - intros [l Hl]. apply strip_Some in Hl. exists (Strings.of_bytes l).
    rewrite <- (of_bytes_bytes s), Hl, <- (of_bytes_bytes (p +:+ _)).
    now rewrite bytes_append, bytes_of_bytes.
  - intros [t ->]. rewrite bytes_append, strip_app. eauto.
Qed.

Section Trim.
Context (runes : list (list ascii)).

Lemma spaces_app (l m : list ascii) :
  spaces runes l -> spaces runes m -> spaces runes (l ++ m).
Proof.
  induction 1 as [|r l Hr Hl IH]; intros Hm; [exact Hm|].
  rewrite <- app_assoc. constructor; auto.
Qed.

Lemma strip_any_Some (l l' : list ascii) :
  Strings.strip_any runes l = Some l' -> exists r, In r runes /\ l = r ++ l'.
Proof.
  induction runes as [|r rs IH]; simpl; [discriminate|].
  destruct (Strings.strip r l) as [m|] eqn:E.
  - intros [= ->]. apply strip_Some in E. eauto.
  - intros H. destruct (IH H) as (r' & Hin & ->). eauto.
Qed.

Lemma strip_any_None (l : list ascii) :
  Strings.strip_any runes l = None <->
  forall r l', In r runes -> l <> r ++ l'.
Proof.
  induction runes as [|r rs IH]; simpl.
  - split; [intros _ ? ? []|reflexivity].
  - destruct (Strings.strip r l) as [m|] eqn:E.
    + split; [discriminate|]. intros H. apply strip_Some in E.
      exfalso. apply (H r m); auto.
    + rewrite IH. split.
      * intros H r' l' [<-|Hin] Heq; [|exact (H r' l' Hin Heq)].
        apply strip_Some in Heq. congruence.
      * intros H r' l' Hin. apply H. now right.
Qed.

Lemma trim_left_split (n : nat) (l : list ascii) :
  exists p, l = p ++ Strings.trim_left runes n l /\ spaces runes p.
Proof.
  revert l. induction n as [|n IH]; intros l; simpl.
  - exists []. split; [reflexivity|constructor].
  - destruct (Strings.strip_any runes l) as [l'|] eqn:E.
    + destruct (strip_any_Some _ _ E) as (r & Hin & ->).
      destruct (IH l') as (p & Hp & Hsp).
      exists (r ++ p). split; [|now constructor].
      rewrite <- app_assoc. now rewrite <- Hp.
    + exists []. split; [reflexivity|constructor].
Qed.

Hypothesis runes_nonempty : forall r, In r runes -> r <> [].

Lemma trim_left_done (n : nat) (l : list ascii) :
  length l <= n ->
  Strings.strip_any runes (Strings.trim_left runes n l) = None.
Proof.
  revert l. induction n as [|n IH]; intros l Hlen; simpl.
  - destruct l; [|simpl in Hlen; lia].
    apply strip_any_None. intros r l' Hin Heq.
    symmetry in Heq. apply app_eq_nil in Heq as [-> _].
    now apply (runes_nonempty []).
  - destruct (Strings.strip_any runes l) as [l'|] eqn:E; [|exact E].
    destruct (strip_any_Some _ _ E) as (r & Hin & ->).
    apply IH. rewrite length_app in Hlen.
    destruct r; [now apply runes_nonempty in Hin|simpl in Hlen; lia].
Qed.

(** Nothing to strip from a string has nothing to strip from a prefix of
    it either. *)
Lemma strip_any_None_prefix (l q : list ascii) :
  Strings.strip_any runes (l ++ q) = None -> Strings.strip_any runes l = None.
Proof.
  rewrite !strip_any_None. intros H r l' Hin ->.
  apply (H r (l' ++ q) Hin). now rewrite app_assoc.
Qed.
End Trim.

Lemma spaces_rev (runes : list (list ascii)) (l : list ascii) :
  spaces (map (@rev ascii) runes) l -> spaces runes (rev l).
Proof.
  induction 1 as [|r l Hr Hl IH]; [constructor|].
  rewrite rev_app_distr. apply spaces_app; [exact IH|].
  apply in_map_iff in Hr as (r0 & <- & Hin).
  rewrite rev_involutive, <- (app_nil_r r0). constructor; [exact Hin|constructor].
Qed.

Lemma space_runes_nonempty (r : list ascii) : In r Strings.space_runes -> r <> [].
Proof.
  intros Hin ->. revert Hin. unfold Strings.space_runes. simpl.
  intuition discriminate.
Qed.

Lemma rev_space_runes_nonempty (r : list ascii) :
  In r (map (@rev ascii) Strings.space_runes) -> r <> [].
Proof.
  intros Hin ->. apply in_map_iff in Hin as (r0 & Hr & Hin).
  apply (space_runes_nonempty r0 Hin).
  rewrite <- (rev_involutive r0), Hr. reflexivity.
Qed.

(** [TrimSpace] cuts a run of white space off each end of the string, and
    cuts all of it: what is left neither starts nor ends with a space
    rune. *)
Lemma TrimSpace_spec (s : string) :
  (exists l r,
      Strings.bytes s = l ++ Strings.bytes (Strings.TrimSpace s) ++ r /\
      spaces Strings.space_runes l /\ spaces Strings.space_runes r) /\
  Strings.strip_any Strings.space_runes
    (Strings.bytes (Strings.TrimSpace s)) = None /\
  Strings.strip_any (map (@rev ascii) Strings.space_runes)
    (rev (Strings.bytes (Strings.TrimSpace s))) = None.
Proof.
  unfold Strings.TrimSpace. rewrite bytes_of_bytes.
  set (m := Strings.TrimLeftSpace (Strings.bytes s)).
  destruct (trim_left_split Strings.space_runes
              (length (Strings.bytes s)) (Strings.bytes s)) as (l & Hl & Hsl).
  fold (Strings.TrimLeftSpace (Strings.bytes s)) in Hl. fold m in Hl.
  destruct (trim_left_split (map (@rev ascii) Strings.space_runes)
              (length m) (rev m)) as (q & Hq & Hsq).
  assert (Hm : m = Strings.TrimRightSpace m ++ rev q).
  { unfold Strings.TrimRightSpace. rewrite <- rev_app_distr, <- Hq.
    now rewrite rev_involutive. }
  assert (Hlead : Strings.strip_any Strings.space_runes m = None).
  { apply trim_left_done; [apply space_runes_nonempty|reflexivity]. }
  split; [|split].
  - exists l, (rev q). split; [|split].
    + now rewrite <- Hm.
    + exact Hsl.
    + now apply spaces_rev.
  - rewrite Hm in Hlead. now apply strip_any_None_prefix in Hlead.
  - unfold Strings.TrimRightSpace. rewrite rev_involutive.
    apply trim_left_done; [apply rev_space_runes_nonempty|].
    now rewrite length_rev.
Qed.

Example TrimSpace_my_board : Strings.TrimSpace "  My Board  " = "My Board".
Proof. reflexivity. Qed.

Example TrimSpace_blank : Strings.TrimSpace "  " = "" /\ Strings.TrimSpace "" = "".
Proof. split; reflexivity. Qed.

Example TrimSpace_unicode :
  Strings.TrimSpace (String (Strings.b 227) (String (Strings.b 128)
    (String (Strings.b 128) "a b" +:+ String (Strings.b 194)
    (String (Strings.b 160) "")))) = "a b".
Proof. reflexivity. Qed.

Example ToLower_ascii f : Strings.ToLower f "A@X.com" = "a@x.com".
Proof. reflexivity. Qed.

Example TrimPrefix_bearer :
  Strings.HasPrefix "Bearer abc" "Bearer " = true /\
  Strings.TrimPrefix "Bearer abc" "Bearer " = "abc".
Proof. split; reflexivity. Qed.

(** ** The GORM table model *)

Section TableFacts.
Context {Row : Type} (pk : Row -> string).

Lemma least_None (l : list Row) : gorm.least pk l = None <-> l = [].
Proof.
  destruct l as [|r l]; simpl; [tauto|].
  split; [|discriminate].
  destruct (gorm.least pk l) as [r'|]; [|discriminate].
  destruct (String.leb (pk r) (pk r')); discriminate.
Qed.

Lemma least_In (l : list Row) (r : Row) : gorm.least pk l = Some r -> In r l.
Proof.
  revert r. induction l as [|x l IH]; simpl; [discriminate|].
  intros r. destruct (gorm.least pk l) as [r'|].
  - destruct (String.leb (pk x) (pk r')); intros [= <-]; auto.
  - intros [= <-]. auto.
Qed.

(** A table whose rows are all the same row has that row first. *)
Lemma least_const (l : list Row) (r : Row) :
  l <> [] -> gorm.least pk (map (fun _ => r) l) = Some r.
Proof.
  induction l as [|x l IH]; [congruence|]. intros _. simpl.
  destruct l as [|y l]; [reflexivity|].
  rewrite IH by discriminate. now destruct (String.leb (pk r) (pk r)).
Qed.

Lemma has_pk_In (l : list Row) (r : Row) : In r l -> gorm.has_pk pk (pk r) l = true.
Proof.
  intros Hin. apply existsb_exists. exists r. split; [exact Hin|].
  apply String.eqb_refl.
Qed.

Lemma has_pk_false (l : list Row) (k : string) :
  gorm.has_pk pk k l = false <-> forall r, In r l -> pk r <> k.
Proof.
  unfold gorm.has_pk. split.
  - intros H r Hin Heq. apply not_true_iff_false in H. apply H.
    apply existsb_exists. exists r. split; [exact Hin|]. now apply String.eqb_eq.
  - intros H. apply not_true_iff_false. intros Hex.
    apply existsb_exists in Hex as (r & Hin & Heq).
    apply String.eqb_eq in Heq. exact (H r Hin Heq).
Qed.

(** [UPDATE ... WHERE id = k] seen through a [WHERE id = j] query. *)
Lemma filter_replace_same (l : list Row) (row : Row) :
  List.filter (fun r => String.eqb (pk r) (pk row))
    (map (fun r => if String.eqb (pk r) (pk row) then row else r) l)
  = map (fun _ => row) (List.filter (fun r => String.eqb (pk r) (pk row)) l).
Proof.
  induction l as [|x l IH]; simpl; [reflexivity|].
  destruct (String.eqb (pk x) (pk row)) eqn:E; simpl.
  - rewrite String.eqb_refl. simpl. now rewrite IH.
  - rewrite E. exact IH.
Qed.

Lemma filter_replace_other (l : list Row) (row : Row) (j : string) :
  j <> pk row ->
  List.filter (fun r => String.eqb (pk r) j)
    (map (fun r => if String.eqb (pk r) (pk row) then row else r) l)
  = List.filter (fun r => String.eqb (pk r) j) l.
Proof.
  intros Hj. induction l as [|x l IH]; simpl; [reflexivity|].
  destruct (String.eqb (pk x) (pk row)) eqn:E; simpl.
  - apply String.eqb_eq in E.
    assert (String.eqb (pk row) j = false) as ->
      by (apply String.eqb_neq; congruence).
    assert (String.eqb (pk x) j = false) as ->
      by (apply String.eqb_neq; congruence).
    exact IH.
  - destruct (String.eqb (pk x) j); now rewrite IH.
Qed.

Lemma filter_negb_none (f : Row -> bool) (l : list Row) :
  List.filter f l = [] -> List.filter (fun r => negb (f r)) l = l.
Proof.
  induction l as [|x l IH]; simpl; [reflexivity|].
  destruct (f x); simpl; [discriminate|]. intros H. now rewrite IH.
Qed.

Lemma filter_filter_negb (f : Row -> bool) (l : list Row) :
  List.filter f (List.filter (fun r => negb (f r)) l) = [].
Proof.
  induction l as [|x l IH]; simpl; [reflexivity|].
  destruct (f x) eqn:E; simpl; [exact IH|]. now rewrite E.
Qed.
End TableFacts.

(** ** The board stores *)

Lemma memBoardRepo_Update_contract (r : memBoardRepo) :
  Update_contract MemBoardRepo r.
Proof.
  intros id title now. simpl.
  unfold memBoardRepo_Get, memBoardRepo_Update.
  destruct (boards r !! id) as [b|] eqn:E; [|reflexivity].
  simpl. eexists. split; [reflexivity|]. simpl. split.
  - now rewrite lookup_insert_eq.
  - intros j Hj. now rewrite lookup_insert_ne.
Qed.

Lemma sqliteBoardRepo_Get_healthy (tbl : list boardRow) (id : string) :
  sqliteBoardRepo_Get id (gorm.mkDB tbl None) =
  match gorm.least boardRow_ID (List.filter (by_id id) tbl) with
  | Some rw => (sqliteBoardRepo_toModel rw, None)
  | None => (zeroBoard, Some ErrNotFound)
  end.
Proof.
  unfold sqliteBoardRepo_Get, gorm.First. simpl.
  now destruct (gorm.least boardRow_ID (List.filter (by_id id) tbl)).
Qed.

Lemma sqliteBoardRepo_Update_contract (tbl : list boardRow) :
  Update_contract SQLiteBoardRepo (gorm.mkDB tbl None).
Proof.
  intros id title now. simpl BR_Get. simpl BR_Update.
  rewrite sqliteBoardRepo_Get_healthy.
  unfold sqliteBoardRepo_Update, gorm.First. simpl gorm.fault. cbv iota.
  simpl gorm.rows.
  destruct (gorm.least boardRow_ID (List.filter (by_id id) tbl)) as [rw|] eqn:E;
    [|reflexivity].
  pose proof (least_In _ _ _ E) as Hin.
  apply filter_In in Hin as [Hin Hid]. apply String.eqb_eq in Hid.
  set (rw' := mkBoardRow (boardRow_ID rw) title (boardRow_CreatedAt rw) now).
  cbv zeta. simpl boardRow_ID. simpl boardRow_Title. simpl boardRow_CreatedAt.
  fold rw'. unfold gorm.Save. simpl gorm.fault. cbv iota. simpl gorm.rows.
  change (boardRow_ID rw') with (boardRow_ID rw) at 1.
  rewrite (has_pk_In boardRow_ID tbl rw Hin).
  eexists. split; [reflexivity|].
  split.
  - rewrite sqliteBoardRepo_Get_healthy. unfold by_id. rewrite <- Hid.
    change (boardRow_ID rw) with (boardRow_ID rw').
    rewrite (filter_replace_same boardRow_ID tbl rw').
    rewrite least_const; [reflexivity|].
    change (boardRow_ID rw') with (boardRow_ID rw). rewrite Hid.
    intros Hnil. fold (by_id id) in Hnil. rewrite Hnil in E. discriminate.
  - intros j Hj. rewrite !sqliteBoardRepo_Get_healthy. unfold by_id.
    rewrite (filter_replace_other boardRow_ID tbl rw' j); [reflexivity|].
    simpl. congruence.
Qed.

(** C5. In both board stores [Update(id, title)] fails with [ErrNotFound]
    and changes nothing when [id] is absent; when [id] is present it returns
    the stored board with the new title and [UpdatedAt = now], its [ID] and
    [CreatedAt] as stored, the store returns that board for [id] from then
    on, and every other identifier reads as before.  (For the SQLite store:
    on a working connection.) *)
Theorem board_Update_frame :
  (forall r : memBoardRepo, Update_contract MemBoardRepo r) /\
  (forall tbl : list boardRow,
      Update_contract SQLiteBoardRepo (gorm.mkDB tbl None)).
Proof.
  split; [exact memBoardRepo_Update_contract|exact sqliteBoardRepo_Update_contract].
Qed.

(** The in-memory [Update] touches one key of the map and nothing else. *)
Lemma memBoardRepo_Update_map (r : memBoardRepo) (id title : string) (now : Time)
    (b : Board) :
  boards r !! id = Some b ->
  boards (memBoardRepo_Update id title now r).1 =
  <[id := mkBoard (Board_ID b) title (Board_CreatedAt b) now]> (boards r).
Proof. intros E. unfold memBoardRepo_Update. now rewrite E. Qed.

Example memBoardRepo_Update_run :
  let r := (memBoardRepo_Create "Sprint 1" "b1" 10%Z
              (memBoardRepo_Create "Other" "b2" 5%Z NewMemBoardRepo).1).1 in
  let '(r', res) := memBoardRepo_Update "b1" "Sprint One" 20%Z r in
  res = (mkBoard "b1" "Sprint One" 10%Z 20%Z, None) /\
  memBoardRepo_Get "b2" r' = (mkBoard "b2" "Other" 5%Z 5%Z, None) /\
  memBoardRepo_Update "b3" "x" 20%Z r = (r, (zeroBoard, Some ErrNotFound)).
Proof. vm_compute. auto. Qed.

Lemma memBoardRepo_Delete_contract (r : memBoardRepo) :
  Delete_contract MemBoardRepo r.
Proof.
  intros id. simpl. unfold memBoardRepo_Get, memBoardRepo_Delete.
  destruct (boards r !! id) as [b|] eqn:E; (split; [|split]).
  - intros ? ? [=].
  - intros st' [= <-]. simpl. now rewrite lookup_delete_eq.
  - intros _ _. eauto.
  - reflexivity.
  - intros ? [=].
  - intros ? [=].
Qed.

Lemma sqliteBoardRepo_Delete_contract (tbl : list boardRow) :
  Delete_contract SQLiteBoardRepo (gorm.mkDB tbl None).
Proof.
  intros id. simpl BR_Get. simpl BR_Delete.
  rewrite sqliteBoardRepo_Get_healthy.
  unfold sqliteBoardRepo_Delete, gorm.Delete. simpl gorm.fault. cbv iota.
  simpl gorm.rows.
  destruct (List.filter (by_id id) tbl) as [|x l] eqn:E.
  - simpl. rewrite (filter_negb_none _ _ E). split; [|split].
    + reflexivity.
    + intros ? [=].
    + intros ? [=].
  - assert (Hl : gorm.least boardRow_ID (x :: l) <> None)
      by (rewrite least_None; discriminate).
    destruct (gorm.least boardRow_ID (x :: l)) as [rw|]; [|congruence].
    assert (Hz : (Z.of_nat (length (x :: l)) =? 0)%Z = false)
      by (apply Z.eqb_neq; simpl length; lia).
    rewrite Hz. split; [|split].
    + intros ? ? [=].
    + intros st' [= <-]. rewrite sqliteBoardRepo_Get_healthy.
      now rewrite filter_filter_negb.
    + intros _ _. eauto.
Qed.

(** C6. In both board stores [Delete(id)] fails with [ErrNotFound] (and
    changes nothing) when [Get(id)] finds no board, succeeds when it finds
    one, and after a successful [Delete(id)] a [Get(id)] on the resulting
    store fails with [ErrNotFound].  (For the SQLite store: on a working
    connection.) *)
Theorem board_Delete_then_Get :
  (forall r : memBoardRepo, Delete_contract MemBoardRepo r) /\
  (forall tbl : list boardRow,
      Delete_contract SQLiteBoardRepo (gorm.mkDB tbl None)).
Proof.
  split; [exact memBoardRepo_Delete_contract|exact sqliteBoardRepo_Delete_contract].
Qed.

Example memBoardRepo_Delete_run :
  let r := (memBoardRepo_Create "Sprint 1" "b1" 10%Z NewMemBoardRepo).1 in
  memBoardRepo_Delete "b0" r = (r, Some ErrNotFound) /\
  (memBoardRepo_Delete "b1" r).2 = None /\
  memBoardRepo_Get "b1" (memBoardRepo_Delete "b1" r).1 = (zeroBoard, Some ErrNotFound).
Proof. vm_compute. auto. Qed.

(** ** The board service *)

Lemma filter_by_id_absent (tbl : list boardRow) (id : string) :
  (forall rw, In rw tbl -> boardRow_ID rw <> id) ->
  List.filter (by_id id) tbl = [].
Proof.
  induction tbl as [|x tbl IH]; [reflexivity|]. intros H. simpl.
  unfold by_id at 1.
  destruct (String.eqb_spec (boardRow_ID x) id) as [Heq|_].
  - exfalso. apply (H x); [now left|exact Heq].
  - apply IH. intros rw Hin. apply H. now right.
Qed.

(** C4. [CreateBoard] and [UpdateBoard] work on [TrimSpace title], which is
    [title] with a run of white space cut off each end and none left at
    either end.  When that is empty they return the error "title required"
    and the store they were given, without calling it; otherwise they are
    the store's [Create] and [Update] on the trimmed title, and the board is
    stored under the trimmed title: in the in-memory store and in the SQLite
    store (on a working connection, [Create] under an ID no row has) the
    created board, and the updated board of a stored ID, are returned and are
    what the store then holds for the ID, with the trimmed title.
    [CreateBoard("  My Board  ")] stores "My Board"; [CreateBoard("")] and
    [CreateBoard("  ")] fail. *)
Theorem boardService_trims_title :
  forall (repo : BoardRepository) (title id newid : string) (now : Time)
         (st : BR_state repo),
    let t := Strings.TrimSpace title in
    ((exists l r,
         Strings.bytes title = l ++ Strings.bytes t ++ r /\
         spaces Strings.space_runes l /\ spaces Strings.space_runes r) /\
     Strings.strip_any Strings.space_runes (Strings.bytes t) = None /\
     Strings.strip_any (map (@rev ascii) Strings.space_runes)
       (rev (Strings.bytes t)) = None) /\
    boardService_CreateBoard repo title newid now st =
      (if String.eqb t ""
       then (st, (zeroBoard, Some (errors_New "title required")))
       else BR_Create repo t newid now st) /\
    boardService_UpdateBoard repo id title now st =
      (if String.eqb t ""
       then (st, (zeroBoard, Some (errors_New "title required")))
       else BR_Update repo id t now st) /\
    (forall r : memBoardRepo,
        t <> "" ->
        let '(r', res) := boardService_CreateBoard MemBoardRepo title newid now r in
        res = (mkBoard newid t now now, None) /\
        boards r' !! newid = Some (mkBoard newid t now now)) /\
    (forall (r : memBoardRepo) (b : Board),
        t <> "" -> boards r !! id = Some b ->
        let b' := mkBoard (Board_ID b) t (Board_CreatedAt b) now in
        let '(r', res) := boardService_UpdateBoard MemBoardRepo id title now r in
        res = (b', None) /\ boards r' !! id = Some b') /\
    (forall tbl : list boardRow,
        t <> "" -> (forall rw, In rw tbl -> boardRow_ID rw <> newid) ->
        let '(r', res) :=
          boardService_CreateBoard SQLiteBoardRepo title newid now
            (gorm.mkDB tbl None) in
        res = (mkBoard newid t now now, None) /\
        gorm.rows r' = tbl ++ [mkBoardRow newid t now now] /\
        sqliteBoardRepo_Get newid r' = (mkBoard newid t now now, None)) /\
    (forall (tbl : list boardRow) (b : Board),
        t <> "" -> sqliteBoardRepo_Get id (gorm.mkDB tbl None) = (b, None) ->
        let b' := mkBoard (Board_ID b) t (Board_CreatedAt b) now in
        let '(r', res) :=
          boardService_UpdateBoard SQLiteBoardRepo id title now
            (gorm.mkDB tbl None) in
        res = (b', None) /\ sqliteBoardRepo_Get id r' = (b', None)) /\
    (boardService_CreateBoard MemBoardRepo "  My Board  " newid now NewMemBoardRepo).2
      = (mkBoard newid "My Board" now now, None) /\
    (boardService_CreateBoard SQLiteBoardRepo "  My Board  " newid now
       (gorm.mkDB [] None))
      = (gorm.mkDB [mkBoardRow newid "My Board" now now] None,
         (mkBoard newid "My Board" now now, None)) /\
    boardService_CreateBoard repo "" newid now st
      = (st, (zeroBoard, Some (errors_New "title required"))) /\
    boardService_CreateBoard repo "  " newid now st
      = (st, (zeroBoard, Some (errors_New "title required"))).
Proof.
  intros repo title id newid now st t.
  split; [apply TrimSpace_spec|].
  split; [reflexivity|]. split; [reflexivity|].
  split; [|split; [|split; [|split; [|repeat split; reflexivity]]]].
  - intros r Ht. unfold boardService_CreateBoard. fold t.
    apply String.eqb_neq in Ht. rewrite Ht. simpl.
    split; [reflexivity|]. apply lookup_insert_eq.
  - intros r b Ht Hb b'. unfold boardService_UpdateBoard. fold t.
    apply String.eqb_neq in Ht. rewrite Ht. simpl.
    unfold memBoardRepo_Update. rewrite Hb. simpl.
    split; [reflexivity|]. apply lookup_insert_eq.
  - intros tbl Ht Hfresh. unfold boardService_CreateBoard. fold t.
    apply String.eqb_neq in Ht. rewrite Ht. simpl BR_Create.
    unfold sqliteBoardRepo_Create, gorm.Create. simpl.
    rewrite (proj2 (has_pk_false boardRow_ID tbl newid) Hfresh).
    split; [reflexivity|]. split; [reflexivity|].
    rewrite sqliteBoardRepo_Get_healthy, List.filter_app.
    rewrite (filter_by_id_absent tbl newid Hfresh). simpl.
    unfold by_id. simpl. now rewrite String.eqb_refl.
  - intros tbl b Ht Hb b'. unfold boardService_UpdateBoard. fold t.
    apply String.eqb_neq in Ht. rewrite Ht.
    pose proof (sqliteBoardRepo_Update_contract tbl id t now) as Hc.
    simpl BR_Get in Hc. simpl BR_Update in Hc. rewrite Hb in Hc.
    destruct Hc as (st' & Hu & Hg & _). simpl BR_Update. rewrite Hu.
    split; [reflexivity|exact Hg].
Qed.

(** The title an update leaves in the in-memory store is the trimmed one. *)
Lemma boardService_UpdateBoard_mem (title id : string) (now : Time)
    (r : memBoardRepo) (b : Board) :
  Strings.TrimSpace title <> "" ->
  boards r !! id = Some b ->
  let '(r', res) := boardService_UpdateBoard MemBoardRepo id title now r in
  res = (mkBoard (Board_ID b) (Strings.TrimSpace title) (Board_CreatedAt b) now, None) /\
  boards r' !! id =
    Some (mkBoard (Board_ID b) (Strings.TrimSpace title) (Board_CreatedAt b) now).
Proof.
  intros Ht Hb. unfold boardService_UpdateBoard.
  apply String.eqb_neq in Ht. rewrite Ht. simpl.
  unfold memBoardRepo_Update. rewrite Hb. simpl.
  split; [reflexivity|]. apply lookup_insert_eq.
Qed.

(** ** The board handlers *)

(** Whatever error [UpdateBoard] returns, the update handler answers 400
    with the error's text. *)
Lemma BoardHandler_update_error (repo : BoardRepository) (id title : string)
    (now : Time) (st st' : BR_state repo) (b : Board) (err : error) :
  boardService_UpdateBoard repo id title now st = (st', (b, Some err)) ->
  BoardHandler_update repo id (Some title) now st =
  (st', c_JSON StatusBadRequest (JObj [("error", JStr (Error err))])).
Proof. intros H. unfold BoardHandler_update. now rewrite H. Qed.

(** The sibling handlers answer a missing board with 404. *)
Lemma BoardHandler_get_delete_not_found (repo : BoardRepository) (id : string)
    (st : BR_state repo) (b : Board) :
  BR_Get repo id st = (b, Some ErrNotFound) ->
  BR_Delete repo id st = (st, Some ErrNotFound) ->
  status (BoardHandler_get repo id st) = StatusNotFound /\
  status (BoardHandler_delete repo id st).2 = StatusNotFound.
Proof.
  intros Hg Hd. unfold BoardHandler_get, BoardHandler_delete,
    boardService_GetBoard, boardService_DeleteBoard.
  now rewrite Hg, Hd.
Qed.

(** C8. At the input the claim is about, PUT /boards/{id} with a valid
    title and an [id] the store does not hold, the handler answers 400 with
    the store's "not found" text (the claim: 404); an empty title gives 400
    as claimed, and GET and DELETE on the same [id] give 404. *)
Theorem BoardHandler_update_missing_id_is_400 :
  BoardHandler_update MemBoardRepo "b1" (Some "Sprint One") 20%Z NewMemBoardRepo
    = (NewMemBoardRepo,
       c_JSON StatusBadRequest (JObj [("error", JStr "not found")])) /\
  BoardHandler_update SQLiteBoardRepo "b1" (Some "Sprint One") 20%Z (gorm.mkDB [] None)
    = (gorm.mkDB [] None,
       c_JSON StatusBadRequest (JObj [("error", JStr "not found")])) /\
  BoardHandler_update MemBoardRepo "b1" (Some "  ") 20%Z NewMemBoardRepo
    = (NewMemBoardRepo,
       c_JSON StatusBadRequest (JObj [("error", JStr "title required")])) /\
  status (BoardHandler_get MemBoardRepo "b1" NewMemBoardRepo) = StatusNotFound /\
  status (BoardHandler_delete MemBoardRepo "b1" NewMemBoardRepo).2 = StatusNotFound.
Proof. repeat split; reflexivity. Qed.

(** ** The in-memory user store *)

Lemma memUserRepo_Create_present (email password id : string) (now : Time)
    (r : memUserRepo) :
  is_Some (emailIdx r !! email) ->
  memUserRepo_Create email password id now r = (r, (zeroUser, Some ErrUserExists)).
Proof. intros [i Hi]. unfold memUserRepo_Create. now rewrite Hi. Qed.

Lemma memUserRepo_Create_absent (email password id : string) (now : Time)
    (r : memUserRepo) :
  emailIdx r !! email = None ->
  memUserRepo_Create email password id now r =
  (mkMemUserRepo (<[id := mkUser id email password now]> (users r))
                 (<[email := id]> (emailIdx r)),
   (mkUser id email password now, None)).
Proof. intros Hi. unfold memUserRepo_Create. now rewrite Hi. Qed.

(** [GetByEmail] succeeds exactly on the keys of the email index. *)
Lemma memUserRepo_GetByEmail_ok (email : string) (r : memUserRepo) :
  (memUserRepo_GetByEmail email r).2 = None <-> is_Some (emailIdx r !! email).
Proof.
  unfold memUserRepo_GetByEmail.
  destruct (emailIdx r !! email); simpl; split; eauto; try discriminate.
  intros [? [=]].
Qed.

Lemma memUserRepo_index_consistent (r : memUserRepo) :
  memUserRepo_reachable r -> index_consistent r.
Proof.
  induction 1 as [|r email password id now Hr IH].
  - intros id u. simpl. now rewrite lookup_empty.
  - destruct (emailIdx r !! email) as [i|] eqn:E.
    + rewrite memUserRepo_Create_present by eauto. exact IH.
    + rewrite memUserRepo_Create_absent by exact E. simpl.
      intros id' u'. simpl.
      destruct (decide (id = id')) as [<-|Hne].
      * rewrite lookup_insert_eq. intros [= <-]. simpl.
        split; [reflexivity|apply lookup_insert_eq].
      * rewrite lookup_insert_ne by exact Hne. intros Hu.
        destruct (IH id' u' Hu) as [Hid Hidx]. split; [exact Hid|].
        rewrite lookup_insert_ne; [exact Hidx|].
        intros Heq. rewrite <- Heq in Hidx. congruence.
Qed.

(** In every reachable state of the in-memory store two stored users with
    the same email are the same entry. *)
Lemma memUserRepo_email_unique (r : memUserRepo) (i j : string) (u v : User) :
  memUserRepo_reachable r ->
  users r !! i = Some u -> users r !! j = Some v ->
  User_Email u = User_Email v -> i = j /\ u = v.
Proof.
  intros Hr Hu Hv He.
  destruct (memUserRepo_index_consistent r Hr i u Hu) as [_ Hi].
  destruct (memUserRepo_index_consistent r Hr j v Hv) as [_ Hj].
  rewrite He in Hi. assert (i = j) as -> by congruence.
  split; [reflexivity|congruence].
Qed.

(** ** The SQLite user store *)

(** [Create] looks at the primary key only: with an unused ID it inserts
    the row whatever the email. *)
Lemma sqliteUserRep_Create_fresh_id (tbl : list userRow)
    (email hash id : string) (now : Time) :
  gorm.has_pk userRow_ID id tbl = false ->
  sqliteUserRep_Create email hash id now (gorm.mkDB tbl None) =
  (gorm.mkDB (tbl ++ [mkUserRow id email hash now]) None,
   (mkUser id email hash now, None)).
Proof.
  intros H. unfold sqliteUserRep_Create, gorm.Create. simpl. now rewrite H.
Qed.

(** C1. The in-memory store answers a second [Create] of a present email
    with [ErrUserExists] and is unchanged; the SQLite store, given the same
    two calls, inserts a second row with the same email and reports
    success. *)
Theorem sqliteUserRep_Create_duplicate_email :
  (let '(m1, res1) := memUserRepo_Create "a@x.com" "h1" uuid1 10%Z NewMemUserRepo in
   memUserRepo_Create "a@x.com" "h2" uuid2 20%Z m1
     = (m1, (zeroUser, Some ErrUserExists))) /\
  (let '(r1, res1) := sqliteUserRep_Create "a@x.com" "h1" uuid1 10%Z (gorm.mkDB [] None) in
   sqliteUserRep_Create "a@x.com" "h2" uuid2 20%Z r1
     = (gorm.mkDB [mkUserRow uuid1 "a@x.com" "h1" 10%Z;
                   mkUserRow uuid2 "a@x.com" "h2" 20%Z] None,
        (mkUser uuid2 "a@x.com" "h2" 20%Z, None))).
Proof. split; reflexivity. Qed.

Lemma filter_nil_iff {A : Type} (f : A -> bool) (l : list A) :
  List.filter f l = [] <-> forall x, In x l -> f x = false.
Proof.
  induction l as [|x l IH]; simpl; [tauto|].
  destruct (f x) eqn:E.
  - split; [discriminate|]. intros H. specialize (H x (or_introl eq_refl)). congruence.
  - rewrite IH. split; [intros H y [<-|Hy]; auto|intros H y Hy; apply H; auto].
Qed.

(** C9. [sqliteUserRep.GetByEmail] returns [ErrNotFound] exactly when the
    connection works and no row has the email; on any other database error
    it returns the zero [User] with a nil error; it returns no other error.
    ([GetByID] hands the same database error on.) *)
Theorem sqliteUserRep_GetByEmail_errors :
  forall (r : sqliteUserRep) (email : string),
    ((sqliteUserRep_GetByEmail email r).2 = Some ErrNotFound <->
       gorm.fault r = None /\
       forall rw, In rw (gorm.rows r) -> userRow_Email rw <> email) /\
    (forall msg, gorm.fault r = Some msg ->
       sqliteUserRep_GetByEmail email r = (zeroUser, None) /\
       sqliteUserRep_GetByID email r = (zeroUser, Some (DriverError msg))) /\
    ((sqliteUserRep_GetByEmail email r).2 = None \/
     (sqliteUserRep_GetByEmail email r).2 = Some ErrNotFound).
Proof.
  intros [tbl [msg|]] email; unfold sqliteUserRep_GetByEmail, sqliteUserRep_GetByID,
    gorm.First; simpl.
  - split; [split; [discriminate|intros [[=] _]]|].
    split; [intros ? [= <-]; split; reflexivity|now left].
  - set (f := fun rw => String.eqb (userRow_Email rw) email).
    destruct (gorm.least userRow_ID (List.filter f tbl)) as [rw|] eqn:E; simpl.
    + split; [|split; [intros ? [=]|now left]].
      split; [discriminate|]. intros [_ H]. exfalso.
      apply least_In, filter_In in E as [Hin Hf].
      apply String.eqb_eq in Hf. exact (H rw Hin Hf).
    + split; [|split; [intros ? [=]|now right]].
      split; [|reflexivity]. intros _. split; [reflexivity|].
      apply least_None in E. intros rw Hin Heq.
      pose proof (proj1 (filter_nil_iff f tbl) E rw Hin) as Hf.
      unfold f in Hf. apply String.eqb_neq in Hf. contradiction.
Qed.

Example sqliteUserRep_GetByEmail_closed_connection :
  sqliteUserRep_GetByEmail "a@x.com"
    (gorm.mkDB [mkUserRow uuid1 "a@x.com" "h1" 10%Z] (Some "sql: database is closed"))
  = (zeroUser, None).
Proof. reflexivity. Qed.

(** ** The auth middleware *)

(** The middleware by cases on the header, the codec and the validator. *)
Lemma AuthRequired_cases (J : JWT) (secret authz : string) (now : Time) :
  AuthRequired J secret authz now =
  if Strings.HasPrefix authz "Bearer " then
    match jwt_ParseSigned J (Strings.TrimPrefix authz "Bearer ") secret with
    | inl _ =>
        AbortWithStatusJSON StatusUnauthorized (JObj [("error", JStr "invalid token")])
    | inr c =>
        if Validate (Registered c) now
        then Next [("userID", Subject (Registered c)); ("email", Email c)]
        else AbortWithStatusJSON StatusUnauthorized
               (JObj [("error", JStr "invalid token")])
    end
  else AbortWithStatusJSON StatusUnauthorized
         (JObj [("error", JStr "missing bearer token")]).
Proof.
  unfold AuthRequired, jwt_ParseWithClaims.
  destruct (Strings.HasPrefix authz "Bearer "); simpl; [|reflexivity].
  destruct (jwt_ParseSigned J _ secret) as [err|c]; [reflexivity|].
  destruct (Validate (Registered c) now); reflexivity.
Qed.

Lemma AuthRequired_bearer (J : JWT) (secret tok : string) (now : Time) :
  AuthRequired J secret ("Bearer " +:+ tok) now =
  match jwt_ParseSigned J tok secret with
  | inl _ =>
      AbortWithStatusJSON StatusUnauthorized (JObj [("error", JStr "invalid token")])
  | inr c =>
      if Validate (Registered c) now
      then Next [("userID", Subject (Registered c)); ("email", Email c)]
      else AbortWithStatusJSON StatusUnauthorized
             (JObj [("error", JStr "invalid token")])
  end.
Proof.
  rewrite AuthRequired_cases, HasPrefix_append, TrimPrefix_append. reflexivity.
Qed.

(** The expiry instant of an issued token is [now + TTL] cut down to a
    whole second. *)
Lemma NewNumericDate_truncates (t : Time) :
  (NumericDate_Time (NewNumericDate t) <= t < NumericDate_Time (NewNumericDate t) + Second)%Z.
Proof.
  unfold NumericDate_Time, NewNumericDate, Second.
  pose proof (Z.div_mod t 1000000000 ltac:(lia)).
  pose proof (Z.mod_pos_bound t 1000000000 ltac:(lia)). lia.
Qed.

Lemma Validate_issued (s : authService) (u : User) (now t : Time) :
  Validate (Registered (issueToken_claims s u now)) t =
  Time_Before t (NumericDate_Time (NewNumericDate (Time_Add now (tokenTTL s)))).
Proof. unfold Validate. simpl. apply andb_true_r. Qed.



Lemma string_app_assoc (a b c : string) : (a +:+ b) +:+ c = a +:+ (b +:+ c).
Proof.
  induction a as [|x a IH]; [reflexivity|].
  change (String x ((a +:+ b) +:+ c) = String x (a +:+ (b +:+ c))).
  now rewrite IH.
Qed.

(** With three segments that round-trip through the codecs, the token the
    service signs is one the parser accepts under the same secret, with the
    claims that were signed. *)
Lemma jwt5_accepts_signed (E : Encoding) (secret : string) (c : customClaims) :
  let h := EncodeSegment E (header_json E "HS256") in
  let p := EncodeSegment E (claims_json E c) in
  let sg := EncodeSegment E (hmac E SHA256 secret (h +:+ "." +:+ p)) in
  split_on "."%char (h +:+ "." +:+ p +:+ "." +:+ sg) = [h; p; sg] ->
  DecodeSegment E h = Some (header_json E "HS256") ->
  header_alg E (header_json E "HS256") = Some (Some "HS256") ->
  DecodeSegment E p = Some (claims_json E c) ->
  claims_of_json E (claims_json E c) = Some c ->
  DecodeSegment E sg = Some (hmac E SHA256 secret (h +:+ "." +:+ p)) ->
  jwt5_accepts E secret (jwt5_SignedString E secret c).1 c.
Proof.
  intros h p sg Hs Hh Ha Hp Hc Hg.
  change ((jwt5_SignedString E secret c).1)
    with ((h +:+ "." +:+ p) +:+ "." +:+ sg).
  exists h, p, sg, (header_json E "HS256"), "HS256", SHA256,
    (claims_json E c), (hmac E SHA256 secret (h +:+ "." +:+ p)).
  split; [rewrite string_app_assoc; exact Hs|]. auto 10.
Qed.


Example AuthRequired_run :
  let s := mkAuthService "dev-secret" (24 * Hour)%Z in
  let u := mkUser uuid1 "alice@example.com" "" 0%Z in
  let now := 1500000000%Z in
  let tok := (authService_issueToken clear_jwt s u now).1 in
  AuthRequired clear_jwt "dev-secret" ("Bearer " +:+ tok) 86400999999999%Z
    = Next [("userID", uuid1); ("email", "alice@example.com")] /\
  AuthRequired clear_jwt "dev-secret" ("Bearer " +:+ tok) 86401000000000%Z
    = AbortWithStatusJSON StatusUnauthorized (JObj [("error", JStr "invalid token")]) /\
  AuthRequired clear_jwt "other-secret" ("Bearer " +:+ tok) 5%Z
    = AbortWithStatusJSON StatusUnauthorized (JObj [("error", JStr "invalid token")]) /\
  AuthRequired clear_jwt "dev-secret" tok 5%Z
    = AbortWithStatusJSON StatusUnauthorized
        (JObj [("error", JStr "missing bearer token")]) /\
  AuthRequired clear_jwt "dev-secret" "" 5%Z
    = AbortWithStatusJSON StatusUnauthorized
        (JObj [("error", JStr "missing bearer token")]).
Proof. vm_compute. repeat split; reflexivity. Qed.

(** The parser at work on the stand-in encoding: the token the service
    signs is accepted; so is a token whose header names HS384 and whose
    signature is the SHA-384 MAC under the same secret, although that is not
    its HMAC-SHA256 signature; a token under another secret, with a header
    naming no HMAC method, or with two segments only is refused. *)
Example AuthRequired_jwt5_run :
  let E := clear_encoding in
  let claims := issueToken_claims (mkAuthService "dev-secret" (24 * Hour)%Z)
                  (mkUser uuid1 "alice@example.com" "" 0%Z) 1500000000%Z in
  let p := EncodeSegment E (claims_json E claims) in
  let token alg hash key :=
    let h := EncodeSegment E (header_json E alg) in
    h +:+ "." +:+ p +:+ "." +:+ EncodeSegment E (hmac E hash key (h +:+ "." +:+ p)) in
  let ok := Next [("userID", uuid1); ("email", "alice@example.com")] in
  let refused := AbortWithStatusJSON StatusUnauthorized
                   (JObj [("error", JStr "invalid token")]) in
  (jwt5_SignedString E "dev-secret" claims).1 = token "HS256" SHA256 "dev-secret" /\
  AuthRequired (jwt5 E) "dev-secret"
    ("Bearer " +:+ token "HS256" SHA256 "dev-secret") 5%Z = ok /\
  AuthRequired (jwt5 E) "dev-secret"
    ("Bearer " +:+ token "HS384" SHA384 "dev-secret") 5%Z = ok /\
  hmac E SHA384 "dev-secret" (EncodeSegment E (header_json E "HS384") +:+ "." +:+ p)
    <> hmac E SHA256 "dev-secret" (EncodeSegment E (header_json E "HS384") +:+ "." +:+ p) /\
  AuthRequired (jwt5 E) "dev-secret"
    ("Bearer " +:+ token "HS256" SHA256 "other-secret") 5%Z = refused /\
  AuthRequired (jwt5 E) "dev-secret"
    ("Bearer " +:+ token "none" SHA256 "dev-secret") 5%Z = refused /\
  AuthRequired (jwt5 E) "dev-secret"
    ("Bearer " +:+ token "RS256" SHA256 "dev-secret") 5%Z = refused /\
  AuthRequired (jwt5 E) "dev-secret"
    ("Bearer " +:+ EncodeSegment E (header_json E "HS256") +:+ "." +:+ p) 5%Z = refused.
Proof. vm_compute. repeat split; (reflexivity || discriminate). Qed.

(** ** The auth service *)

Section AuthFacts.
Context (lower : string -> string) (B : Bcrypt) (J : JWT).

Lemma Login_lookup_failed (users : UserRepository) (s : authService)
    (email password : string) (now : Time) (st : UR_state users)
    (z : User) (err : error) :
  UR_GetByEmail users (normalized lower email) st = (z, Some err) ->
  authService_Login lower B J users s email password now st =
  (zeroUser, "", Some (errors_New "invalid credentials")).
Proof.
  intros H. unfold authService_Login. fold (normalized lower email).
  now rewrite H.
Qed.

Lemma Login_wrong_password (users : UserRepository) (s : authService)
    (email password : string) (now : Time) (st : UR_state users)
    (u : User) (err : error) :
  UR_GetByEmail users (normalized lower email) st = (u, None) ->
  bcrypt_Compare B (User_PasswordHash u) password = Some err ->
  authService_Login lower B J users s email password now st =
  (zeroUser, "", Some (errors_New "invalid credentials")).
Proof.
  intros H Hc. unfold authService_Login. fold (normalized lower email).
  now rewrite H, Hc.
Qed.

Lemma Login_ok (users : UserRepository) (s : authService)
    (email password : string) (now : Time) (st : UR_state users) (u : User) :
  UR_GetByEmail users (normalized lower email) st = (u, None) ->
  bcrypt_Compare B (User_PasswordHash u) password = None ->
  authService_Login lower B J users s email password now st =
  (u, (authService_issueToken J s u now).1, (authService_issueToken J s u now).2).
Proof.
  intros H Hc. unfold authService_Login. fold (normalized lower email).
  rewrite H, Hc. now destruct (authService_issueToken J s u now).
Qed.

(** What a successful [Register] did: the email and the password were not
    empty, bcrypt returned a hash, and the store's [Create] returned the
    user for the normalized email and that hash. *)
Lemma Register_ok_inv (users : UserRepository) (s : authService)
    (email password salt id : string) (created now : Time)
    (st st' : UR_state users) (u : User) (tok : string) :
  authService_Register lower B J users s email password salt id created now st
    = (st', (u, tok, None)) ->
  normalized lower email <> "" /\ password <> "" /\
  exists hash,
    bcrypt_Generate B password salt = (hash, None) /\
    UR_Create users (normalized lower email) hash id created st = (st', (u, None)) /\
    authService_issueToken J s u now = (tok, None).
Proof.
  unfold authService_Register. fold (normalized lower email).
  destruct (String.eqb_spec (normalized lower email) "") as [|Hn];
    [simpl; intros [=]|].
  destruct (String.eqb_spec password "") as [|Hp]; [simpl; intros [=]|].
  simpl. destruct (bcrypt_Generate B password salt) as [hash [e|]]; [intros [=]|].
  destruct (UR_Create users _ hash id created st) as [st1 [u1 [e|]]] eqn:Ec;
    [intros [=]|].
  destruct (authService_issueToken J s u1 now) as [tok1 e1] eqn:Ei.
  intros [= -> -> -> ->]. split; [exact Hn|]. split; [exact Hp|].
  exists hash. auto.
Qed.

(** C2. A login under an email the store does not find and a login under a
    registered user's email with a password that bcrypt refuses return the
    same triple, the zero user, the empty token and the error "invalid
    credentials", and the handler answers both with the same 401 body. *)
Theorem Login_failures_indistinguishable :
  forall (users : UserRepository) (s : authService) (st : UR_state users)
         (e1 p1 e2 p2 : string) (now1 now2 : Time)
         (z u : User) (err1 err2 : error),
    UR_GetByEmail users (normalized lower e1) st = (z, Some err1) ->
    UR_GetByEmail users (normalized lower e2) st = (u, None) ->
    bcrypt_Compare B (User_PasswordHash u) p2 = Some err2 ->
    authService_Login lower B J users s e1 p1 now1 st
      = (zeroUser, "", Some (errors_New "invalid credentials")) /\
    authService_Login lower B J users s e2 p2 now2 st
      = authService_Login lower B J users s e1 p1 now1 st /\
    AuthHandler_login lower B J users s (Some (e1, p1)) now1 st
      = c_JSON StatusUnauthorized (JObj [("error", JStr "invalid credentials")]) /\
    AuthHandler_login lower B J users s (Some (e2, p2)) now2 st
      = AuthHandler_login lower B J users s (Some (e1, p1)) now1 st.
Proof.
  intros users s st e1 p1 e2 p2 now1 now2 z u err1 err2 H1 H2 Hc.
  pose proof (Login_lookup_failed users s e1 p1 now1 st z err1 H1) as L1.
  pose proof (Login_wrong_password users s e2 p2 now2 st u err2 H2 Hc) as L2.
  unfold AuthHandler_login. rewrite L1, L2. auto.
Qed.

(** The round trip over any store that returns the user it created when
    asked for the email. *)
Lemma Register_Login_roundtrip (users : UserRepository) (s : authService)
    (email password salt id : string) (created now now' t : Time)
    (st st' : UR_state users) (u : User) (tok tok' : string) :
  authService_Register lower B J users s email password salt id created now st
    = (st', (u, tok, None)) ->
  UR_GetByEmail users (normalized lower email) st' = (u, None) ->
  bcrypt_Compare B (User_PasswordHash u) password = None ->
  authService_issueToken J s u now' = (tok', None) ->
  jwt_ParseSigned J tok' (jwtSecret s) = inr (issueToken_claims s u now') ->
  (t < NumericDate_Time (NewNumericDate (Time_Add now' (tokenTTL s))))%Z ->
  authService_Login lower B J users s email password now' st' = (u, tok', None) /\
  AuthRequired J (jwtSecret s) ("Bearer " +:+ tok') t =
    Next [("userID", User_ID u); ("email", User_Email u)].
Proof.
  intros _ Hget Hcmp Hi Hp Ht. split.
  - rewrite (Login_ok users s email password now' st' u Hget Hcmp). now rewrite Hi.
  - rewrite AuthRequired_bearer, Hp, Validate_issued. unfold Time_Before.
    now rewrite (proj2 (Z.ltb_lt _ _) Ht).
Qed.

(** The in-memory store returns the user it created. *)
Lemma memUserRepo_Create_GetByEmail (email hash id : string) (now : Time)
    (r r' : memUserRepo) (u : User) :
  memUserRepo_Create email hash id now r = (r', (u, None)) ->
  memUserRepo_GetByEmail email r' = (u, None) /\ User_PasswordHash u = hash.
Proof.
  unfold memUserRepo_Create.
  destruct (emailIdx r !! email); [intros [=]|]. intros [= <- <-].
  unfold memUserRepo_GetByEmail. simpl. rewrite !lookup_insert_eq. auto.
Qed.

(** On the in-memory store, after a successful [Register] a [Login] with
    the same email and password succeeds for whoever registered, and the
    middleware accepts its token until it expires, with the registered
    user's ID as subject. *)
Lemma Register_Login_roundtrip_mem (s : authService)
    (email password salt id : string) (created now now' t : Time)
    (st st' : memUserRepo) (u : User) (tok tok' : string) :
  authService_Register lower B J MemUserRepo s email password salt id created now st
    = (st', (u, tok, None)) ->
  (forall hash, bcrypt_Generate B password salt = (hash, None) ->
                bcrypt_Compare B hash password = None) ->
  authService_issueToken J s u now' = (tok', None) ->
  jwt_ParseSigned J tok' (jwtSecret s) = inr (issueToken_claims s u now') ->
  (t < NumericDate_Time (NewNumericDate (Time_Add now' (tokenTTL s))))%Z ->
  authService_Login lower B J MemUserRepo s email password now' st' = (u, tok', None) /\
  AuthRequired J (jwtSecret s) ("Bearer " +:+ tok') t =
    Next [("userID", User_ID u); ("email", User_Email u)].
Proof.
  intros Hreg Hb Hi Hp Ht.
  destruct (Register_ok_inv _ _ _ _ _ _ _ _ _ _ _ _ Hreg)
    as (_ & _ & hash & Hg & Hc & _).
  simpl in Hc. apply memUserRepo_Create_GetByEmail in Hc as [Hget Hh].
  apply (Register_Login_roundtrip MemUserRepo s email password salt id
           created now now' t st st' u tok tok'); auto.
  rewrite Hh. auto.
Qed.

(** The SQLite store returns the user it created when no earlier row has
    the email. *)
Lemma sqliteUserRep_Create_GetByEmail (tbl : list userRow)
    (email hash id : string) (now : Time) (r' : sqliteUserRep) (u : User) :
  (forall rw, In rw tbl -> userRow_Email rw <> email) ->
  sqliteUserRep_Create email hash id now (gorm.mkDB tbl None) = (r', (u, None)) ->
  sqliteUserRep_GetByEmail email r' = (u, None) /\ User_PasswordHash u = hash.
Proof.
  intros Hfresh. unfold sqliteUserRep_Create, gorm.Create. simpl.
  destruct (gorm.has_pk userRow_ID id tbl); [intros [=]|]. intros [= <- <-].
  unfold sqliteUserRep_GetByEmail, gorm.First. simpl.
  rewrite List.filter_app. simpl. rewrite String.eqb_refl.
  rewrite (proj2 (filter_nil_iff _ tbl)).
  - simpl. auto.
  - intros rw Hin. apply String.eqb_neq. auto.
Qed.

Lemma Register_Login_roundtrip_sqlite (s : authService) (tbl : list userRow)
    (email password salt id : string) (created now now' t : Time)
    (st' : sqliteUserRep) (u : User) (tok tok' : string) :
  (forall rw, In rw tbl -> userRow_Email rw <> normalized lower email) ->
  authService_Register lower B J SQLiteUserRepo s email password salt id created now
    (gorm.mkDB tbl None) = (st', (u, tok, None)) ->
  (forall hash, bcrypt_Generate B password salt = (hash, None) ->
                bcrypt_Compare B hash password = None) ->
  authService_issueToken J s u now' = (tok', None) ->
  jwt_ParseSigned J tok' (jwtSecret s) = inr (issueToken_claims s u now') ->
  (t < NumericDate_Time (NewNumericDate (Time_Add now' (tokenTTL s))))%Z ->
  authService_Login lower B J SQLiteUserRepo s email password now' st' = (u, tok', None) /\
  AuthRequired J (jwtSecret s) ("Bearer " +:+ tok') t =
    Next [("userID", User_ID u); ("email", User_Email u)].
Proof.
  intros Hfresh Hreg Hb Hi Hp Ht.
  destruct (Register_ok_inv _ _ _ _ _ _ _ _ _ _ _ _ Hreg)
    as (_ & _ & hash & Hg & Hc & _).
  simpl in Hc. apply sqliteUserRep_Create_GetByEmail in Hc as [Hget Hh]; [|exact Hfresh].
  apply (Register_Login_roundtrip SQLiteUserRepo s email password salt id
           created now now' t (gorm.mkDB tbl None) st' u tok tok'); auto.
  rewrite Hh. auto.
Qed.
End AuthFacts.

Lemma Login_failures_indistinguishable_witness :
  let s := mkAuthService "dev-secret" (24 * Hour)%Z in
  let st := (memUserRepo_Create "alice@example.com" "salt$secret1" uuid1 10%Z
               NewMemUserRepo).1 in
  authService_Login no_unicode_lower clear_bcrypt clear_jwt MemUserRepo s
    "bob@example.com" "secret1" 20%Z st
    = (zeroUser, "", Some (errors_New "invalid credentials")) /\
  authService_Login no_unicode_lower clear_bcrypt clear_jwt MemUserRepo s
    "Alice@Example.com " "wrong" 30%Z st
    = authService_Login no_unicode_lower clear_bcrypt clear_jwt MemUserRepo s
        "bob@example.com" "secret1" 20%Z st /\
  AuthHandler_login no_unicode_lower clear_bcrypt clear_jwt MemUserRepo s
    (Some ("bob@example.com", "secret1")) 20%Z st
    = c_JSON StatusUnauthorized (JObj [("error", JStr "invalid credentials")]) /\
  AuthHandler_login no_unicode_lower clear_bcrypt clear_jwt MemUserRepo s
    (Some ("Alice@Example.com ", "wrong")) 30%Z st
    = AuthHandler_login no_unicode_lower clear_bcrypt clear_jwt MemUserRepo s
        (Some ("bob@example.com", "secret1")) 20%Z st.
Proof.
  exact (Login_failures_indistinguishable no_unicode_lower clear_bcrypt clear_jwt
           MemUserRepo (mkAuthService "dev-secret" (24 * Hour)%Z)
           (memUserRepo_Create "alice@example.com" "salt$secret1" uuid1 10%Z
              NewMemUserRepo).1
           "bob@example.com" "secret1" "Alice@Example.com " "wrong" 20%Z 30%Z
           zeroUser (mkUser uuid1 "alice@example.com" "salt$secret1" 10%Z)
           ErrNotFound ErrMismatchedHashAndPassword
           eq_refl eq_refl eq_refl).
Defined.

(** The round trip run on the in-memory store: register, log in a day
    later minus a nanosecond of slack on the token issued then. *)
Example Register_Login_roundtrip_mem_run :
  let s := mkAuthService "dev-secret" (24 * Hour)%Z in
  let '(st', (u, tok, err)) :=
    authService_Register no_unicode_lower clear_bcrypt clear_jwt MemUserRepo s
      " Alice@Example.com" "secret1" "salt" uuid1 1000%Z 1001%Z NewMemUserRepo in
  err = None /\ u = mkUser uuid1 "alice@example.com" "salt$secret1" 1000%Z /\
  exists tok',
    authService_Login no_unicode_lower clear_bcrypt clear_jwt MemUserRepo s
      " Alice@Example.com" "secret1" 5000000000%Z st' = (u, tok', None) /\
    AuthRequired clear_jwt "dev-secret" ("Bearer " +:+ tok') 86404999999999%Z
      = Next [("userID", uuid1); ("email", "alice@example.com")].
Proof.
  cbv zeta.
  destruct (authService_Register no_unicode_lower clear_bcrypt clear_jwt MemUserRepo
              (mkAuthService "dev-secret" (24 * Hour)%Z)
              " Alice@Example.com" "secret1" "salt" uuid1 1000%Z 1001%Z NewMemUserRepo)
    as [st' [[u tok] err]] eqn:E.
  assert (err = None /\ u = mkUser uuid1 "alice@example.com" "salt$secret1" 1000%Z)
    as [-> ->].
  { pose proof E as E'. vm_compute in E'. inversion E'. split; reflexivity. }
  split; [reflexivity|]. split; [reflexivity|].
  eexists.
  apply (Register_Login_roundtrip_mem no_unicode_lower clear_bcrypt clear_jwt
           (mkAuthService "dev-secret" (24 * Hour)%Z)
           " Alice@Example.com" "secret1" "salt" uuid1 1000%Z 1001%Z 5000000000%Z
           86404999999999%Z NewMemUserRepo st' _ tok _ E).
  - intros hash [= <-]. reflexivity.
  - reflexivity.
  - reflexivity.
  - reflexivity.
Qed.

(** C3. On the SQLite store the round trip fails at this input: a second
    [Register] under an email that already has a row succeeds, and a
    [Login] with the email and the password just registered is answered
    "invalid credentials", because the lookup returns the older row. *)
Theorem Register_Login_sqlite_duplicate_email :
  forall (lower : string -> string) (B : Bcrypt) (J : JWT) (s : authService)
         (salt1 salt2 h1 h2 : string) (c1 n1 c2 n2 n3 : Time) (err : error),
    bcrypt_Generate B "old-pass" salt1 = (h1, None) ->
    bcrypt_Generate B "new-pass" salt2 = (h2, None) ->
    bcrypt_Compare B h1 "new-pass" = Some err ->
    let u1 := mkUser uuid1 "a@x.com" h1 c1 in
    let u2 := mkUser uuid2 "a@x.com" h2 c2 in
    let st1 := gorm.mkDB [mkUserRow uuid1 "a@x.com" h1 c1] None in
    let st2 := gorm.mkDB [mkUserRow uuid1 "a@x.com" h1 c1;
                          mkUserRow uuid2 "a@x.com" h2 c2] None in
    authService_Register lower B J SQLiteUserRepo s "a@x.com" "old-pass"
      salt1 uuid1 c1 n1 (gorm.mkDB [] None)
      = (st1, (u1, (authService_issueToken J s u1 n1).1,
               (authService_issueToken J s u1 n1).2)) /\
    authService_Register lower B J SQLiteUserRepo s "a@x.com" "new-pass"
      salt2 uuid2 c2 n2 st1
      = (st2, (u2, (authService_issueToken J s u2 n2).1,
               (authService_issueToken J s u2 n2).2)) /\
    authService_Login lower B J SQLiteUserRepo s "a@x.com" "new-pass" n3 st2
      = (zeroUser, "", Some (errors_New "invalid credentials")).
Proof.
  intros lower B J s salt1 salt2 h1 h2 c1 n1 c2 n2 n3 err Hg1 Hg2 Hc u1 u2 st1 st2.
  unfold authService_Register, authService_Login.
  change (Strings.TrimSpace (Strings.ToLower lower "a@x.com")) with "a@x.com".
  simpl String.eqb. simpl orb. cbv iota. rewrite Hg1, Hg2.
  split; [|split].
  - change (UR_Create SQLiteUserRepo "a@x.com" h1 uuid1 c1 (gorm.mkDB [] None))
      with (st1, (u1, @None error)).
    cbv iota. now destruct (authService_issueToken J s u1 n1).
  - change (UR_Create SQLiteUserRepo "a@x.com" h2 uuid2 c2 st1)
      with (st2, (u2, @None error)).
    cbv iota. now destruct (authService_issueToken J s u2 n2).
  - change (UR_GetByEmail SQLiteUserRepo "a@x.com" st2) with (u1, @None error).
    cbv iota. simpl User_PasswordHash. now rewrite Hc.
Qed.

Lemma Register_Login_sqlite_duplicate_email_witness :
  let s := mkAuthService "dev-secret" (24 * Hour)%Z in
  let st1 := gorm.mkDB [mkUserRow uuid1 "a@x.com" "salt1$old-pass" 10%Z] None in
  let st2 := gorm.mkDB [mkUserRow uuid1 "a@x.com" "salt1$old-pass" 10%Z;
                        mkUserRow uuid2 "a@x.com" "salt2$new-pass" 20%Z] None in
  authService_Register no_unicode_lower clear_bcrypt clear_jwt SQLiteUserRepo s
    "a@x.com" "old-pass" "salt1" uuid1 10%Z 11%Z (gorm.mkDB [] None)
    = (st1, (mkUser uuid1 "a@x.com" "salt1$old-pass" 10%Z,
             "HS256|a@x.com|kanban_api|0b0e1c5a-5f0b-4c57-9d1c-0d2f3f0a1b11|86400||0|dev-secret",
             None)) /\
  authService_Register no_unicode_lower clear_bcrypt clear_jwt SQLiteUserRepo s
    "a@x.com" "new-pass" "salt2" uuid2 20%Z 21%Z st1
    = (st2, (mkUser uuid2 "a@x.com" "salt2$new-pass" 20%Z,
             "HS256|a@x.com|kanban_api|7c9e6679-7425-40de-944b-e07fc1f90ae7|86400||0|dev-secret",
             None)) /\
  authService_Login no_unicode_lower clear_bcrypt clear_jwt SQLiteUserRepo s
    "a@x.com" "new-pass" 30%Z st2
    = (zeroUser, "", Some (errors_New "invalid credentials")).
Proof.
  exact (Register_Login_sqlite_duplicate_email no_unicode_lower clear_bcrypt clear_jwt
           (mkAuthService "dev-secret" (24 * Hour)%Z)
           "salt1" "salt2" "salt1$old-pass" "salt2$new-pass" 10%Z 11%Z 20%Z 21%Z 30%Z
           ErrMismatchedHashAndPassword eq_refl eq_refl eq_refl).
Defined.

(** ** Where the email is normalized *)

Lemma memUserRepo_GetByEmail_after_Create (e e' hash id : string) (now : Time)
    (r : memUserRepo) :
  emailIdx r !! e = None ->
  ((memUserRepo_GetByEmail e' (memUserRepo_Create e hash id now r).1).2 = None
   <-> e' = e \/ (memUserRepo_GetByEmail e' r).2 = None).
Proof.
  intros He. rewrite memUserRepo_Create_absent by exact He.
  rewrite !memUserRepo_GetByEmail_ok. simpl.
  destruct (decide (e = e')) as [<-|Hne].
  - rewrite lookup_insert_eq. split; eauto.
  - rewrite lookup_insert_ne by exact Hne. split; [auto|].
    intros [->|H]; [contradiction|exact H].
Qed.

(** A second [Register] under an email with the same normal form is refused
    by the in-memory store. *)
Lemma Register_mem_duplicate (lower : string -> string) (B : Bcrypt) (J : JWT)
    (s : authService) (email password salt id hash : string)
    (created now : Time) (st : memUserRepo) :
  is_Some (emailIdx st !! normalized lower email) ->
  normalized lower email <> "" -> password <> "" ->
  bcrypt_Generate B password salt = (hash, None) ->
  authService_Register lower B J MemUserRepo s email password salt id created now st
    = (st, (zeroUser, "", Some ErrUserExists)).
Proof.
  intros Hi Hn Hp Hg. unfold authService_Register. fold (normalized lower email).
  apply String.eqb_neq in Hn, Hp. rewrite Hn, Hp, Hg. simpl.
  now rewrite memUserRepo_Create_present.
Qed.

(** C10. The in-memory store keys users by the email string as given:
    [Create] under two different strings with two different IDs succeeds
    twice and both users are found, each under its own string and ID, so
    "A@x.com" and "a@x.com" coexist; after a [Create] under [e] a lookup
    succeeds under [e] and under what succeeded before, nothing else.  The
    normal form comes from the auth service: [Register] hands the store the
    trimmed, lowered email, the registered user carries it, and a
    [Register] under an email whose normal form is already indexed returns
    [ErrUserExists] and leaves the store as it was. *)
Theorem memUserRepo_keys_are_exact_strings :
  forall (lower : string -> string) (B : Bcrypt) (J : JWT),
    (forall (r : memUserRepo) (e1 e2 h1 h2 id1 id2 : string) (t1 t2 : Time),
        e1 <> e2 -> id1 <> id2 ->
        emailIdx r !! e1 = None -> emailIdx r !! e2 = None ->
        let u1 := mkUser id1 e1 h1 t1 in
        let u2 := mkUser id2 e2 h2 t2 in
        exists r1 r2,
          memUserRepo_Create e1 h1 id1 t1 r = (r1, (u1, None)) /\
          memUserRepo_Create e2 h2 id2 t2 r1 = (r2, (u2, None)) /\
          memUserRepo_GetByEmail e1 r2 = (u1, None) /\
          memUserRepo_GetByEmail e2 r2 = (u2, None) /\
          memUserRepo_GetByID id1 r2 = (u1, None) /\
          memUserRepo_GetByID id2 r2 = (u2, None)) /\
    (let r1 := (memUserRepo_Create "A@x.com" "h1" uuid1 10%Z NewMemUserRepo).1 in
     let '(r2, res) := memUserRepo_Create "a@x.com" "h2" uuid2 20%Z r1 in
     res = (mkUser uuid2 "a@x.com" "h2" 20%Z, None) /\
     memUserRepo_GetByEmail "A@x.com" r2 = (mkUser uuid1 "A@x.com" "h1" 10%Z, None) /\
     memUserRepo_GetByEmail "a@x.com" r2 = (mkUser uuid2 "a@x.com" "h2" 20%Z, None) /\
     memUserRepo_GetByEmail "a@X.com" r2 = (zeroUser, Some ErrNotFound)) /\
    (forall (r : memUserRepo) (e e' hash id : string) (now : Time),
        emailIdx r !! e = None ->
        ((memUserRepo_GetByEmail e' (memUserRepo_Create e hash id now r).1).2 = None
         <-> e' = e \/ (memUserRepo_GetByEmail e' r).2 = None)) /\
    (forall (s : authService) (email password salt id : string)
            (created now : Time) (st st' : memUserRepo) (u : User) (tok : string),
        authService_Register lower B J MemUserRepo s email password salt id created now st
          = (st', (u, tok, None)) ->
        User_Email u = Strings.TrimSpace (Strings.ToLower lower email) /\
        emailIdx st !! User_Email u = None /\
        emailIdx st' = <[User_Email u := User_ID u]> (emailIdx st)) /\
    (forall (s : authService) (email password salt id hash : string)
            (created now : Time) (st : memUserRepo),
        is_Some (emailIdx st !! Strings.TrimSpace (Strings.ToLower lower email)) ->
        Strings.TrimSpace (Strings.ToLower lower email) <> "" -> password <> "" ->
        bcrypt_Generate B password salt = (hash, None) ->
        authService_Register lower B J MemUserRepo s email password salt id created now st
          = (st, (zeroUser, "", Some ErrUserExists))).
Proof.
  intros lower B J. split; [|split; [|split; [|split]]].
  - intros r e1 e2 h1 h2 id1 id2 t1 t2 He Hid H1 H2 u1 u2.
    rewrite (memUserRepo_Create_absent e1 h1 id1 t1 r H1).
    eexists. eexists. split; [reflexivity|].
    rewrite memUserRepo_Create_absent
      by (simpl; now rewrite lookup_insert_ne).
    split; [reflexivity|].
    unfold memUserRepo_GetByEmail, memUserRepo_GetByID. simpl.
    rewrite (lookup_insert_ne _ e2 e1) by congruence.
    rewrite !lookup_insert_eq.
    rewrite (lookup_insert_ne _ id2 id1) by congruence.
    rewrite !lookup_insert_eq. simpl. auto.
  - vm_compute. auto.
  - intros r e e' hash id now. apply memUserRepo_GetByEmail_after_Create.
  - intros s email password salt id created now st st' u tok Hreg.
    destruct (Register_ok_inv _ _ _ _ _ _ _ _ _ _ _ _ _ _ _ Hreg)
      as (_ & _ & hash & _ & Hc & _).
    simpl in Hc. unfold memUserRepo_Create in Hc. fold (normalized lower email).
    destruct (emailIdx st !! normalized lower email) eqn:E; [now inversion Hc|].
    inversion Hc; subst; simpl. auto.
  - intros s email password salt id hash created now st.
    apply Register_mem_duplicate.
Qed.

Example Register_normalizes_run :
  let s := mkAuthService "dev-secret" (24 * Hour)%Z in
  let '(st1, (u1, _, err1)) :=
    authService_Register no_unicode_lower clear_bcrypt clear_jwt MemUserRepo s
      "A@x.com" "pw1" "salt1" uuid1 10%Z 11%Z NewMemUserRepo in
  err1 = None /\ User_Email u1 = "a@x.com" /\
  authService_Register no_unicode_lower clear_bcrypt clear_jwt MemUserRepo s
    "  a@X.COM " "pw2" "salt2" uuid2 20%Z 21%Z st1
    = (st1, (zeroUser, "", Some ErrUserExists)).
Proof. vm_compute. auto. Qed.

(** * Further properties of the code *)

(** ** The in-memory user store: the index and the table *)

(** Every entry of the email index points at a stored user. *)
Lemma memUserRepo_index_points (r : memUserRepo) :
  memUserRepo_reachable r ->
  forall e id, emailIdx r !! e = Some id -> is_Some (users r !! id).
Proof.
  induction 1 as [|r email password id now Hr IH]; intros e i.
  - simpl. now rewrite lookup_empty.
  - destruct (emailIdx r !! email) as [j|] eqn:E.
    + rewrite memUserRepo_Create_present by eauto. apply IH.
    + rewrite memUserRepo_Create_absent by exact E. simpl.
      destruct (decide (email = e)) as [<-|Hne].
      * rewrite lookup_insert_eq. intros [= <-]. rewrite lookup_insert_eq. eauto.
      * rewrite lookup_insert_ne by exact Hne. intros Hi.
        destruct (IH e i Hi) as [v Hv].
        destruct (decide (id = i)) as [<-|Hid].
        -- rewrite lookup_insert_eq. eauto.
        -- rewrite lookup_insert_ne by exact Hid. eauto.
Qed.

(** X1. In every state the in-memory user store reaches, the two lookups
    agree: the user [GetByEmail] returns is the one [GetByID] returns for
    that user's ID, and every stored user is found under its own email and
    under its own ID. *)
Theorem memUserRepo_lookups_agree :
  forall r : memUserRepo,
    memUserRepo_reachable r ->
    (forall e u, memUserRepo_GetByEmail e r = (u, None) ->
                 memUserRepo_GetByID (User_ID u) r = (u, None)) /\
    (forall id u, users r !! id = Some u ->
                  memUserRepo_GetByEmail (User_Email u) r = (u, None) /\
                  memUserRepo_GetByID id r = (u, None) /\
                  User_ID u = id).
Proof.
  intros r Hr. split.
  - intros e u. unfold memUserRepo_GetByEmail, memUserRepo_GetByID.
    destruct (emailIdx r !! e) as [id|] eqn:E; [|intros [=]].
    destruct (memUserRepo_index_points r Hr e id E) as [v Hv].
    rewrite Hv. simpl. intros [= <-].
    destruct (memUserRepo_index_consistent r Hr id v Hv) as [-> _].
    now rewrite Hv.
  - intros id u Hu.
    destruct (memUserRepo_index_consistent r Hr id u Hu) as [Hid Hidx].
    unfold memUserRepo_GetByEmail, memUserRepo_GetByID.
    rewrite Hidx, Hu. auto.
Qed.

Lemma memUserRepo_lookups_agree_witness :
  let r := (memUserRepo_Create "b@x.com" "h2" uuid2 20%Z
              (memUserRepo_Create "a@x.com" "h1" uuid1 10%Z NewMemUserRepo).1).1 in
  (forall e u, memUserRepo_GetByEmail e r = (u, None) ->
               memUserRepo_GetByID (User_ID u) r = (u, None)) /\
  (forall id u, users r !! id = Some u ->
                memUserRepo_GetByEmail (User_Email u) r = (u, None) /\
                memUserRepo_GetByID id r = (u, None) /\
                User_ID u = id).
Proof.
  exact (memUserRepo_lookups_agree _
           (reach_memUserRepo_Create _ "b@x.com" "h2" uuid2 20%Z
              (reach_memUserRepo_Create _ "a@x.com" "h1" uuid1 10%Z
                 reach_NewMemUserRepo))).
Defined.

Lemma memUserRepo_fresh_index (r : memUserRepo) :
  memUserRepo_reachable_fresh r ->
  forall e id, emailIdx r !! e = Some id ->
    exists u, users r !! id = Some u /\ User_Email u = e.
Proof.
  induction 1 as [|r email password id now Hr IH Hfresh]; intros e i.
  - simpl. now rewrite lookup_empty.
  - destruct (emailIdx r !! email) as [j|] eqn:E.
    + rewrite memUserRepo_Create_present by eauto. apply IH.
    + rewrite memUserRepo_Create_absent by exact E. simpl.
      destruct (decide (email = e)) as [<-|Hne].
      * rewrite lookup_insert_eq. intros [= <-]. rewrite lookup_insert_eq. eauto.
      * rewrite lookup_insert_ne by exact Hne. intros Hi.
        destruct (IH e i Hi) as (v & Hv & He).
        exists v. split; [|exact He].
        rewrite lookup_insert_ne; [exact Hv|]. intros <-. congruence.
Qed.

(** X2. While every generated ID is new to the store, [GetByEmail(e)]
    returns, when it succeeds, a user whose email is [e]; and a successful
    [Create] changes no other lookup: every other email reads as before. *)
Theorem memUserRepo_GetByEmail_exact :
  forall r : memUserRepo,
    memUserRepo_reachable_fresh r ->
    (forall e u, memUserRepo_GetByEmail e r = (u, None) -> User_Email u = e) /\
    (forall email hash id now e,
        users r !! id = None -> e <> email ->
        memUserRepo_GetByEmail e (memUserRepo_Create email hash id now r).1
        = memUserRepo_GetByEmail e r).
Proof.
  intros r Hr. split.
  - intros e u. unfold memUserRepo_GetByEmail.
    destruct (emailIdx r !! e) as [id|] eqn:E; [|intros [=]].
    destruct (memUserRepo_fresh_index r Hr e id E) as (v & Hv & He).
    rewrite Hv. simpl. now intros [= <-].
  - intros email hash id now e Hfresh Hne.
    destruct (emailIdx r !! email) as [j|] eqn:E.
    + now rewrite memUserRepo_Create_present by eauto.
    + rewrite memUserRepo_Create_absent by exact E.
      unfold memUserRepo_GetByEmail. simpl.
      rewrite lookup_insert_ne by congruence.
      destruct (emailIdx r !! e) as [i|] eqn:Ei; [|reflexivity].
      destruct (memUserRepo_fresh_index r Hr e i Ei) as (v & Hv & _).
      rewrite lookup_insert_ne; [reflexivity|]. intros <-. congruence.
Qed.

Lemma memUserRepo_GetByEmail_exact_witness :
  let r := (memUserRepo_Create "a@x.com" "h1" uuid1 10%Z NewMemUserRepo).1 in
  (forall e u, memUserRepo_GetByEmail e r = (u, None) -> User_Email u = e) /\
  (forall email hash id now e,
      users r !! id = None -> e <> email ->
      memUserRepo_GetByEmail e (memUserRepo_Create email hash id now r).1
      = memUserRepo_GetByEmail e r).
Proof.
  exact (memUserRepo_GetByEmail_exact _
           (fresh_memUserRepo_Create _ "a@x.com" "h1" uuid1 10%Z
              fresh_NewMemUserRepo eq_refl)).
Defined.

(** Without that, a [Create] whose generated ID is already in use replaces
    the stored user, and the older email then leads to the newer user. *)
Example memUserRepo_Create_id_collision :
  let r := (memUserRepo_Create "b@x.com" "h2" uuid1 20%Z
              (memUserRepo_Create "a@x.com" "h1" uuid1 10%Z NewMemUserRepo).1).1 in
  memUserRepo_GetByEmail "a@x.com" r = (mkUser uuid1 "b@x.com" "h2" 20%Z, None).
Proof. reflexivity. Qed.

(** ** Login and the middleware: what a success implies *)

(** What [Login] went through when it returns no error. *)
Lemma Login_returned (lower : string -> string) (B : Bcrypt) (J : JWT)
    (users : UserRepository) (s : authService) (email password : string)
    (now : Time) (st : UR_state users) (u : User) (tok : string) :
  authService_Login lower B J users s email password now st = (u, tok, None) ->
  UR_GetByEmail users (Strings.TrimSpace (Strings.ToLower lower email)) st
    = (u, None) /\
  bcrypt_Compare B (User_PasswordHash u) password = None /\
  authService_issueToken J s u now = (tok, None).
Proof.
  unfold authService_Login.
  destruct (UR_GetByEmail users _ st) as [v [e|]]; [intros [=]|].
  destruct (bcrypt_Compare B (User_PasswordHash v) password) eqn:Hc; [intros [=]|].
  destruct (authService_issueToken J s v now) as [t e] eqn:Hi.
  intros [= -> -> ->]. auto.
Qed.

(** X3. [Login] returns without error only if the store found a user under
    the trimmed, lowered email, bcrypt accepted the password against that
    user's stored hash, and signing succeeded; the user and the token it
    returns are that user and the token signed for it. *)
Theorem Login_success_inv :
  forall (lower : string -> string) (B : Bcrypt) (J : JWT)
         (users : UserRepository) (s : authService) (email password : string)
         (now : Time) (st : UR_state users) (u : User) (tok : string),
    authService_Login lower B J users s email password now st = (u, tok, None) ->
    UR_GetByEmail users (Strings.TrimSpace (Strings.ToLower lower email)) st
      = (u, None) /\
    bcrypt_Compare B (User_PasswordHash u) password = None /\
    authService_issueToken J s u now = (tok, None).
Proof.
  intros lower B J users s email password now st u tok.
  unfold authService_Login.
  destruct (UR_GetByEmail users _ st) as [v [e|]]; [intros [=]|].
  destruct (bcrypt_Compare B (User_PasswordHash v) password) eqn:Hc; [intros [=]|].
  destruct (authService_issueToken J s v now) as [t e] eqn:Hi.
  intros [= -> -> ->]. auto.
Qed.

Lemma Login_success_inv_witness :
  let s := mkAuthService "dev-secret" (24 * Hour)%Z in
  let u := mkUser uuid1 "alice@example.com" "salt$secret1" 10%Z in
  let st := (memUserRepo_Create "alice@example.com" "salt$secret1" uuid1 10%Z
               NewMemUserRepo).1 in
  memUserRepo_GetByEmail "alice@example.com" st = (u, None) /\
  bcrypt_Compare clear_bcrypt "salt$secret1" "secret1" = None /\
  authService_issueToken clear_jwt s u 20%Z
    = ("HS256|alice@example.com|kanban_api|0b0e1c5a-5f0b-4c57-9d1c-0d2f3f0a1b11|86400||0|dev-secret",
       None).
Proof.
  exact (Login_success_inv no_unicode_lower clear_bcrypt clear_jwt MemUserRepo
           (mkAuthService "dev-secret" (24 * Hour)%Z)
           " Alice@Example.com" "secret1" 20%Z
           (memUserRepo_Create "alice@example.com" "salt$secret1" uuid1 10%Z
              NewMemUserRepo).1
           (mkUser uuid1 "alice@example.com" "salt$secret1" 10%Z)
           "HS256|alice@example.com|kanban_api|0b0e1c5a-5f0b-4c57-9d1c-0d2f3f0a1b11|86400||0|dev-secret"
           eq_refl).
Defined.

(** X4. On a SQLite connection whose queries fail, [GetByEmail] hands
    [Login] the zero user with no error, so [Login] compares the password
    with the empty hash: it answers "invalid credentials" when bcrypt
    refuses the empty hash, and would otherwise return the zero user with a
    token signed for it.  Whatever the table holds and whatever the email,
    the answer is the same. *)
Theorem Login_on_failed_query :
  forall (lower : string -> string) (B : Bcrypt) (J : JWT) (s : authService)
         (email password msg : string) (now : Time) (tbl : list userRow),
    authService_Login lower B J SQLiteUserRepo s email password now
      (gorm.mkDB tbl (Some msg))
    = match bcrypt_Compare B "" password with
      | Some _ => (zeroUser, "", Some (errors_New "invalid credentials"))
      | None => (zeroUser, (authService_issueToken J s zeroUser now).1,
                 (authService_issueToken J s zeroUser now).2)
      end.
Proof.
  intros. unfold authService_Login. simpl UR_GetByEmail.
  unfold sqliteUserRep_GetByEmail, gorm.First. simpl.
  destruct (bcrypt_Compare B "" password); [reflexivity|].
  now destruct (authService_issueToken J s zeroUser now).
Qed.

(** X5. The middleware lets a request through only with a header that is
    "Bearer " followed by a token that the codec decodes and verifies under
    the configured secret and whose claims the validator accepts at that
    time; the context then carries that token's subject and email. *)
Theorem AuthRequired_Next_inv :
  forall (J : JWT) (secret authz : string) (now : Time)
         (keys : list (string * string)),
    AuthRequired J secret authz now = Next keys ->
    exists raw c,
      authz = "Bearer " +:+ raw /\
      jwt_ParseSigned J raw secret = inr c /\
      Validate (Registered c) now = true /\
      keys = [("userID", Subject (Registered c)); ("email", Email c)].
Proof.
  intros J secret authz now keys. rewrite AuthRequired_cases.
  destruct (Strings.HasPrefix authz "Bearer ") eqn:Hp; [|intros [=]].
  apply HasPrefix_true in Hp as [raw ->]. rewrite TrimPrefix_append.
  destruct (jwt_ParseSigned J raw secret) as [e|c] eqn:Hc; [intros [=]|].
  destruct (Validate (Registered c) now) eqn:Hv; [|intros [=]].
  intros [= <-]. exists raw, c. auto.
Qed.

Lemma AuthRequired_Next_inv_witness :
  exists raw c,
    "Bearer HS256|alice@example.com|kanban_api|u1|86400||0|dev-secret"
      = "Bearer " +:+ raw /\
    jwt_ParseSigned clear_jwt raw "dev-secret" = inr c /\
    Validate (Registered c) 5%Z = true /\
    [("userID", "u1"); ("email", "alice@example.com")]
      = [("userID", Subject (Registered c)); ("email", Email c)].
Proof.
  exact (AuthRequired_Next_inv clear_jwt "dev-secret"
           "Bearer HS256|alice@example.com|kanban_api|u1|86400||0|dev-secret"
           5%Z [("userID", "u1"); ("email", "alice@example.com")] eq_refl).
Defined.

(** X6. The claims [issueToken] signs name the user's ID as subject, the
    user's email and the issuer "kanban_api", carry no not-before date, and
    their issued-at is [now] cut down to a whole second; when the TTL is a
    whole number [k] of seconds, the expiry is exactly [k] seconds after the
    issued-at, whatever the fraction of a second at which the token is
    issued. *)
Theorem issueToken_claims_lifetime :
  forall (s : authService) (u : User) (now : Time) (k : Z),
    tokenTTL s = (k * Second)%Z ->
    let c := issueToken_claims s u now in
    Subject (Registered c) = User_ID u /\
    Email c = User_Email u /\
    Issuer (Registered c) = "kanban_api" /\
    NotBefore (Registered c) = None /\
    IssuedAt (Registered c) = Some (NewNumericDate now) /\
    ExpiresAt (Registered c) = Some (NewNumericDate now + k)%Z /\
    (NumericDate_Time (NewNumericDate now) <= now
       < NumericDate_Time (NewNumericDate now) + Second)%Z.
Proof.
  intros s u now k Hk c. simpl. repeat split; try apply NewNumericDate_truncates.
  unfold NewNumericDate, Time_Add. rewrite Hk.
  now rewrite Z.div_add by (unfold Second; lia).
Qed.

Lemma issueToken_claims_lifetime_witness :
  let c := issueToken_claims (mkAuthService "dev-secret" (24 * Hour)%Z)
             (mkUser uuid1 "alice@example.com" "" 0%Z) 1700000000500000000%Z in
  Subject (Registered c) = uuid1 /\
  Email c = "alice@example.com" /\
  Issuer (Registered c) = "kanban_api" /\
  NotBefore (Registered c) = None /\
  IssuedAt (Registered c) = Some (NewNumericDate 1700000000500000000%Z) /\
  ExpiresAt (Registered c) = Some (NewNumericDate 1700000000500000000%Z + 86400)%Z /\
  (NumericDate_Time (NewNumericDate 1700000000500000000%Z) <= 1700000000500000000
     < NumericDate_Time (NewNumericDate 1700000000500000000%Z) + Second)%Z.
Proof.
  exact (issueToken_claims_lifetime (mkAuthService "dev-secret" (24 * Hour)%Z)
           (mkUser uuid1 "alice@example.com" "" 0%Z) 1700000000500000000%Z
           86400%Z eq_refl).
Defined.

(** ** Titles: which are refused, and what is stored *)

(** No space rune is the start of another: the runes of a white-space
    string can be read off in one way only. *)
Lemma space_runes_prefix_free (r r' z : list ascii) :
  In r Strings.space_runes -> In r' Strings.space_runes ->
  Strings.strip r r' = Some z -> z = [].
Proof.
  intros Hr Hr' Hs.
  assert (Hall :
    forallb (fun a => forallb (fun a' =>
       match Strings.strip a a' with Some (_ :: _) => false | _ => true end)
       Strings.space_runes) Strings.space_runes = true) by (vm_compute; reflexivity).
  rewrite forallb_forall in Hall. specialize (Hall r Hr).
  rewrite forallb_forall in Hall. specialize (Hall r' Hr').
  rewrite Hs in Hall. now destruct z.
Qed.

Lemma strip_any_spaces (l : list ascii) :
  spaces Strings.space_runes l -> l <> [] ->
  exists l', Strings.strip_any Strings.space_runes l = Some l' /\
             spaces Strings.space_runes l' /\ length l' < length l.
Proof.
  intros Hs Hne. destruct Hs as [|r m Hr Hm]; [congruence|].
  destruct (Strings.strip_any Strings.space_runes (r ++ m)) as [l'|] eqn:E.
  - exists l'. split; [reflexivity|].
    destruct (strip_any_Some _ _ _ E) as (r' & Hr' & Heq).
    assert (r = r') as <-.
    { apply app_eq_app in Heq as [z [[-> _]|[-> _]]].
      - rewrite (space_runes_prefix_free r' (r' ++ z) z Hr' Hr (strip_app r' z)).
        now rewrite app_nil_r.
      - rewrite (space_runes_prefix_free r (r ++ z) z Hr Hr' (strip_app r z)).
        now rewrite app_nil_r. }
    apply app_inv_head in Heq as <-. split; [exact Hm|].
    rewrite length_app. pose proof (space_runes_nonempty r Hr).
    destruct r; [congruence|simpl; lia].
  - exfalso. apply (proj1 (strip_any_None _ _) E r m Hr). reflexivity.
Qed.

Lemma trim_left_S (runes : list (list ascii)) (n : nat) (l : list ascii) :
  Strings.trim_left runes (S n) l =
  match Strings.strip_any runes l with
  | Some l' => Strings.trim_left runes n l'
  | None => l
  end.
Proof. reflexivity. Qed.

Lemma TrimLeftSpace_spaces (n : nat) (l : list ascii) :
  spaces Strings.space_runes l -> length l <= n ->
  Strings.trim_left Strings.space_runes n l = [].
Proof.
  revert l. induction n as [|n IH]; intros l Hs Hlen.
  - destruct l; [reflexivity|simpl in Hlen; lia].
  - rewrite trim_left_S. destruct l as [|c l]; [reflexivity|].
    destruct (strip_any_spaces (c :: l) Hs ltac:(discriminate))
      as (l' & E & Hs' & Hlt).
    rewrite E. apply IH; [exact Hs'|lia].
Qed.

(** What has no space rune at its start is left alone by the left trim. *)
Lemma trim_left_fixed (runes : list (list ascii)) (n : nat) (l : list ascii) :
  Strings.strip_any runes l = None -> Strings.trim_left runes n l = l.
Proof. intros H. destruct n; [reflexivity|]. now rewrite trim_left_S, H. Qed.

Lemma TrimSpace_blank_iff (s : string) :
  Strings.TrimSpace s = "" <-> spaces Strings.space_runes (Strings.bytes s).
Proof.
  split.
  - intros H. destruct (TrimSpace_spec s) as ((l & r & Heq & Hl & Hr) & _).
    rewrite H in Heq. simpl in Heq. rewrite Heq. now apply spaces_app.
  - intros H. unfold Strings.TrimSpace, Strings.TrimLeftSpace.
    now rewrite TrimLeftSpace_spaces.
Qed.

Lemma TrimSpace_idempotent (s : string) :
  Strings.TrimSpace (Strings.TrimSpace s) = Strings.TrimSpace s.
Proof.
  destruct (TrimSpace_spec s) as (_ & Hl & Hr).
  set (t := Strings.TrimSpace s) in *.
  unfold Strings.TrimSpace at 1, Strings.TrimLeftSpace, Strings.TrimRightSpace.
  rewrite (trim_left_fixed _ _ _ Hl), (trim_left_fixed _ _ _ Hr).
  rewrite rev_involutive. apply of_bytes_bytes.
Qed.

(** X7. The board service refuses exactly the titles made of white space
    only: on the in-memory store [CreateBoard] returns "title required"
    when the title is a (possibly empty) run of Unicode space runes and
    succeeds for every other title, and [UpdateBoard] of a stored board
    does the same; a refused call leaves the store as it was. *)
Theorem boardService_refuses_blank_titles :
  forall (title id newid : string) (now : Time) (r : memBoardRepo),
    ((boardService_CreateBoard MemBoardRepo title newid now r).2.2
       = Some (errors_New "title required")
     <-> spaces Strings.space_runes (Strings.bytes title)) /\
    ((boardService_CreateBoard MemBoardRepo title newid now r).2.2 = None
     <-> ~ spaces Strings.space_runes (Strings.bytes title)) /\
    (spaces Strings.space_runes (Strings.bytes title) ->
     boardService_CreateBoard MemBoardRepo title newid now r
       = (r, (zeroBoard, Some (errors_New "title required"))) /\
     boardService_UpdateBoard MemBoardRepo id title now r
       = (r, (zeroBoard, Some (errors_New "title required")))) /\
    (is_Some (boards r !! id) ->
     ((boardService_UpdateBoard MemBoardRepo id title now r).2.2 = None
      <-> ~ spaces Strings.space_runes (Strings.bytes title))).
Proof.
  intros title id newid now r.
  unfold boardService_CreateBoard, boardService_UpdateBoard.
  rewrite <- TrimSpace_blank_iff.
  destruct (String.eqb_spec (Strings.TrimSpace title) "") as [E|E].
  - simpl. split; [tauto|]. split; [split; [discriminate|tauto]|].
    split; [auto|]. intros _. split; [discriminate|tauto].
  - simpl. split; [split; [discriminate|tauto]|].
    split; [tauto|]. split; [tauto|].
    intros [b Hb]. unfold memBoardRepo_Update. rewrite Hb. simpl. tauto.
Qed.

(** X8. Trimming is idempotent, so the title a board is stored under is
    accepted unchanged when it is sent again: [CreateBoard] and
    [UpdateBoard] on a title and on its trimmed form are the same call. *)
Theorem boardService_trim_idempotent :
  forall (repo : BoardRepository) (title id newid : string) (now : Time)
         (st : BR_state repo),
    Strings.TrimSpace (Strings.TrimSpace title) = Strings.TrimSpace title /\
    boardService_CreateBoard repo (Strings.TrimSpace title) newid now st
      = boardService_CreateBoard repo title newid now st /\
    boardService_UpdateBoard repo id (Strings.TrimSpace title) now st
      = boardService_UpdateBoard repo id title now st.
Proof.
  intros. unfold boardService_CreateBoard, boardService_UpdateBoard.
  now rewrite TrimSpace_idempotent.
Qed.

(** ** The in-memory board store behind the service *)

(** X9. Whatever sequence of [CreateBoard], [UpdateBoard] and
    [DeleteBoard] calls has run on the in-memory store, with a clock that
    does not run backwards, every stored board sits under its own ID, has a
    title that is not empty and has no white space at either end, and was
    created no later than it was last updated, which is no later than the
    latest clock reading. *)
Theorem boards_reachable_invariant :
  forall (t : Time) (r : memBoardRepo),
    boards_reachable t r ->
    forall id b, boards r !! id = Some b ->
      Board_ID b = id /\
      Board_Title b <> "" /\
      Strings.TrimSpace (Board_Title b) = Board_Title b /\
      (Board_CreatedAt b <= Board_UpdatedAt b <= t)%Z.
Proof.
  intros t r H.
  induction H as [t|t r title nid now Hr IH Ht|t r uid title now Hr IH Ht
                 |t r did Hr IH]; intros id b.
  - simpl. now rewrite lookup_empty.
  - unfold boardService_CreateBoard.
    destruct (String.eqb_spec (Strings.TrimSpace title) "") as [E|E]; simpl.
    + intros Hb. destruct (IH id b Hb) as (? & ? & ? & ?). repeat split; auto; lia.
    + destruct (decide (nid = id)) as [<-|Hne].
      * rewrite lookup_insert_eq. intros [= <-]. simpl.
        repeat split; auto using TrimSpace_idempotent; lia.
      * rewrite lookup_insert_ne by exact Hne. intros Hb.
        destruct (IH id b Hb) as (? & ? & ? & ?). repeat split; auto; lia.
  - unfold boardService_UpdateBoard.
    destruct (String.eqb_spec (Strings.TrimSpace title) "") as [E|E]; simpl.
    + intros Hb. destruct (IH id b Hb) as (? & ? & ? & ?). repeat split; auto; lia.
    + unfold memBoardRepo_Update.
      destruct (boards r !! uid) as [b0|] eqn:E0; simpl.
      * destruct (IH uid b0 E0) as (Hid & _ & _ & Hc).
        destruct (decide (uid = id)) as [<-|Hne].
        -- rewrite lookup_insert_eq. intros [= <-]. simpl.
           repeat split; auto using TrimSpace_idempotent; lia.
        -- rewrite lookup_insert_ne by exact Hne. intros Hb.
           destruct (IH id b Hb) as (? & ? & ? & ?). repeat split; auto; lia.
      * intros Hb. destruct (IH id b Hb) as (? & ? & ? & ?).
        repeat split; auto; lia.
  - unfold boardService_DeleteBoard. simpl. unfold memBoardRepo_Delete.
    destruct (boards r !! did) as [b0|] eqn:E0; simpl.
    + intros Hb. apply lookup_delete_Some in Hb as [_ Hb]. now apply IH.
    + apply IH.
Qed.

Lemma boards_reachable_invariant_witness :
  let b := mkBoard "b1" "Sprint One" 10%Z 30%Z in
  Board_ID b = "b1" /\
  Board_Title b <> "" /\
  Strings.TrimSpace (Board_Title b) = Board_Title b /\
  (Board_CreatedAt b <= Board_UpdatedAt b <= 30)%Z.
Proof.
  exact (boards_reachable_invariant 30%Z _
           (boards_UpdateBoard 10%Z _ "b1" "  Sprint One " 30%Z
              (boards_CreateBoard 0%Z _ " Sprint 1" "b1" 10%Z
                 (boards_New 0%Z) ltac:(lia))
              ltac:(lia))
           "b1" (mkBoard "b1" "Sprint One" 10%Z 30%Z) eq_refl).
Defined.

(** X10. [List] of the in-memory store never fails and returns exactly the
    boards [Get] can return, as many as there are keys; a [Create] under an
    unused ID adds its board to the listing and a successful [Delete] takes
    its board out of it, all else staying (up to the order of the
    listing). *)
Theorem memBoardRepo_List_content :
  forall r : memBoardRepo,
    (memBoardRepo_List r).2 = None /\
    (forall b, b ∈ (memBoardRepo_List r).1 <->
               exists id, memBoardRepo_Get id r = (b, None)) /\
    length (memBoardRepo_List r).1 = size (boards r) /\
    (forall title id now,
        boards r !! id = None ->
        (memBoardRepo_List (memBoardRepo_Create title id now r).1).1
          ≡ₚ mkBoard id title now now :: (memBoardRepo_List r).1) /\
    (forall id b,
        boards r !! id = Some b ->
        (memBoardRepo_Delete id r).2 = None /\
        b :: (memBoardRepo_List (memBoardRepo_Delete id r).1).1
          ≡ₚ (memBoardRepo_List r).1).
Proof.
  intros r. unfold memBoardRepo_List. simpl.
  split; [reflexivity|]. split; [|split; [|split]].
  - intros b. rewrite list_elem_of_fmap. split.
    + intros [[id b'] [-> Hin]]. apply elem_of_map_to_list in Hin.
      exists id. unfold memBoardRepo_Get. now rewrite Hin.
    + intros [id Hg]. unfold memBoardRepo_Get in Hg.
      destruct (boards r !! id) as [b'|] eqn:E; [|discriminate].
      injection Hg as ->. exists (id, b). split; [reflexivity|].
      now apply elem_of_map_to_list.
  - now rewrite length_fmap, length_map_to_list.
  - intros title id now Hid. now rewrite map_to_list_insert.
  - intros id b Hb. unfold memBoardRepo_Delete. rewrite Hb. simpl.
    split; [reflexivity|].
    now rewrite <- (map_to_list_delete (boards r) id b Hb).
Qed.

(** ** The SQLite board store *)

#[global] Instance created_desc_total : Total created_desc.
Proof. intros a b. unfold created_desc. lia. Qed.

#[global] Instance created_desc_trans : Transitive created_desc.
Proof. intros a b c. unfold created_desc. lia. Qed.

(** X11. On a working connection [List] of the SQLite store returns the
    boards of all rows, each row once, latest creation first; on a failing
    connection it returns no list and the driver's error. *)
Theorem sqliteBoardRepo_List_sorted :
  forall tbl : list boardRow,
    (sqliteBoardRepo_List (gorm.mkDB tbl None)).2 = None /\
    (sqliteBoardRepo_List (gorm.mkDB tbl None)).1
      ≡ₚ map sqliteBoardRepo_toModel tbl /\
    StronglySorted (fun a b => (Board_CreatedAt b <= Board_CreatedAt a)%Z)
      (sqliteBoardRepo_List (gorm.mkDB tbl None)).1 /\
    (forall msg,
        sqliteBoardRepo_List (gorm.mkDB tbl (Some msg))
        = ([], Some (DriverError msg))).
Proof.
  intros tbl. unfold sqliteBoardRepo_List. simpl.
  split; [reflexivity|]. split; [|split; [|reflexivity]].
  - change (map sqliteBoardRepo_toModel) with (fmap (M:=list) sqliteBoardRepo_toModel).
    now rewrite merge_sort_Permutation.
  - change (map sqliteBoardRepo_toModel) with (fmap (M:=list) sqliteBoardRepo_toModel).
    apply (StronglySorted_fmap _ created_desc).
    + intros a b Hab. exact Hab.
    + apply StronglySorted_merge_sort; apply _.
Qed.

Lemma filter_by_id_unique (tbl : list boardRow) (rw : boardRow) :
  NoDup (boardRow_ID <$> tbl) -> In rw tbl ->
  List.filter (by_id (boardRow_ID rw)) tbl = [rw].
Proof.
  induction tbl as [|x tbl IH]; [intros _ []|].
  rewrite fmap_cons. intros Hnd Hin. apply NoDup_cons in Hnd as [Hx Hnd].
  simpl. unfold by_id at 1. destruct Hin as [->|Hin].
  - rewrite String.eqb_refl. f_equal.
    apply filter_nil_iff. intros y Hy. unfold by_id. apply String.eqb_neq.
    intros Heq. apply Hx. rewrite <- Heq. apply list_elem_of_fmap.
    exists y. split; [reflexivity|now apply list_elem_of_In].
  - destruct (String.eqb_spec (boardRow_ID x) (boardRow_ID rw)) as [Heq|_].
    + exfalso. apply Hx. rewrite Heq. apply list_elem_of_fmap.
      exists rw. split; [reflexivity|now apply list_elem_of_In].
    + now apply IH.
Qed.

Lemma NoDup_fmap_filter {A B : Type} (f : A -> B) (g : A -> bool) (l : list A) :
  NoDup (f <$> l) -> NoDup (f <$> List.filter g l).
Proof.
  induction l as [|x l IH]; [auto|]. rewrite fmap_cons. intros Hnd.
  apply NoDup_cons in Hnd as [Hx Hnd]. simpl.
  destruct (g x); [|auto]. rewrite fmap_cons. apply NoDup_cons. split; [|auto].
  intros Hin. apply Hx. apply list_elem_of_fmap in Hin as (y & -> & Hy).
  apply list_elem_of_fmap. exists y. split; [reflexivity|].
  apply list_elem_of_In. apply list_elem_of_In in Hy.
  now apply filter_In in Hy as [Hy _].
Qed.

Lemma NoDup_fmap_snoc (tbl : list boardRow) (rw : boardRow) :
  gorm.has_pk boardRow_ID (boardRow_ID rw) tbl = false ->
  NoDup (boardRow_ID <$> tbl) -> NoDup (boardRow_ID <$> (tbl ++ [rw])).
Proof.
  intros Hpk Hnd. rewrite fmap_app. apply NoDup_app. split; [exact Hnd|].
  split; [|apply NoDup_singleton].
  intros k Hk Hk'. apply list_elem_of_fmap in Hk as (y & -> & Hy).
  simpl in Hk'. apply list_elem_of_singleton in Hk'.
  apply list_elem_of_In in Hy.
  exact (proj1 (has_pk_false boardRow_ID tbl _) Hpk y Hy Hk').
Qed.

Lemma fmap_replace_pk (tbl : list boardRow) (rw : boardRow) :
  boardRow_ID <$>
    (map (fun r => if String.eqb (boardRow_ID r) (boardRow_ID rw) then rw else r) tbl)
  = boardRow_ID <$> tbl.
Proof.
  induction tbl as [|x tbl IH]; [reflexivity|]. simpl.
  f_equal; [|exact IH].
  destruct (String.eqb_spec (boardRow_ID x) (boardRow_ID rw)); congruence.
Qed.

Lemma board_rows_reachable_NoDup (tbl : list boardRow) :
  board_rows_reachable tbl -> NoDup (boardRow_ID <$> tbl).
Proof.
  induction 1 as [|tbl title id now Hr IH|tbl id title now Hr IH|tbl id Hr IH].
  - constructor.
  - unfold sqliteBoardRepo_Create, gorm.Create. simpl.
    destruct (gorm.has_pk boardRow_ID id tbl) eqn:E; simpl; [exact IH|].
    now apply NoDup_fmap_snoc.
  - unfold sqliteBoardRepo_Update, gorm.First, gorm.Save. simpl.
    destruct (gorm.least boardRow_ID (List.filter (by_id id) tbl)) as [rw|];
      simpl; [|exact IH].
    destruct (gorm.has_pk boardRow_ID (boardRow_ID rw) tbl) eqn:E; simpl.
    + set (rw' := mkBoardRow _ _ _ _).
      change (boardRow_ID rw) with (boardRow_ID rw').
      now rewrite fmap_replace_pk.
    + now apply NoDup_fmap_snoc.
  - unfold sqliteBoardRepo_Delete, gorm.Delete. simpl.
    destruct (_ =? _)%Z; simpl; now apply NoDup_fmap_filter.
Qed.

(** X12. From the empty table, on a working connection, no sequence of
    [Create], [Update] and [Delete] calls of the SQLite board store puts two
    rows under one ID, and [Get] of a row's ID returns that row's board. *)
Theorem sqliteBoardRepo_rows_unique :
  forall tbl : list boardRow,
    board_rows_reachable tbl ->
    NoDup (boardRow_ID <$> tbl) /\
    (forall rw, In rw tbl ->
       sqliteBoardRepo_Get (boardRow_ID rw) (gorm.mkDB tbl None)
       = (sqliteBoardRepo_toModel rw, None)).
Proof.
  intros tbl Hr. pose proof (board_rows_reachable_NoDup tbl Hr) as Hnd.
  split; [exact Hnd|]. intros rw Hin.
  rewrite sqliteBoardRepo_Get_healthy.
  now rewrite (filter_by_id_unique tbl rw Hnd Hin).
Qed.

Lemma sqliteBoardRepo_rows_unique_witness :
  let tbl := [mkBoardRow uuid1 "Sprint 1" 10%Z 10%Z;
              mkBoardRow uuid2 "Backlog" 20%Z 20%Z] in
  NoDup (boardRow_ID <$> tbl) /\
  (forall rw, In rw tbl ->
     sqliteBoardRepo_Get (boardRow_ID rw) (gorm.mkDB tbl None)
     = (sqliteBoardRepo_toModel rw, None)).
Proof.
  exact (sqliteBoardRepo_rows_unique _
           (board_rows_Create _ "Backlog" uuid2 20%Z
              (board_rows_Create _ "Sprint 1" uuid1 10%Z board_rows_empty))).
Defined.

(** X13. [Create] followed by [Get]: the in-memory store always stores the
    new board under the generated ID (replacing a board that had it) and
    [Get] of that ID returns it; the SQLite store does so when no row has
    the ID, and otherwise fails and leaves the table as it was.  In both
    stores every other ID reads as before. *)
Theorem board_Create_then_Get :
  forall (title id : string) (now : Time),
    let b := mkBoard id title now now in
    (forall r : memBoardRepo,
        exists r',
          memBoardRepo_Create title id now r = (r', (b, None)) /\
          memBoardRepo_Get id r' = (b, None) /\
          forall j, j <> id -> memBoardRepo_Get j r' = memBoardRepo_Get j r) /\
    (forall tbl : list boardRow,
        (forall rw, In rw tbl -> boardRow_ID rw <> id) ->
        exists r',
          sqliteBoardRepo_Create title id now (gorm.mkDB tbl None) = (r', (b, None)) /\
          sqliteBoardRepo_Get id r' = (b, None) /\
          forall j, j <> id ->
            sqliteBoardRepo_Get j r' = sqliteBoardRepo_Get j (gorm.mkDB tbl None)) /\
    (forall (tbl : list boardRow) (rw : boardRow),
        In rw tbl -> boardRow_ID rw = id ->
        exists err,
          sqliteBoardRepo_Create title id now (gorm.mkDB tbl None)
          = (gorm.mkDB tbl None, (zeroBoard, Some err))).
Proof.
  intros title id now b. split; [|split].
  - intros r. eexists. split; [reflexivity|].
    unfold memBoardRepo_Get. simpl. rewrite lookup_insert_eq.
    split; [reflexivity|]. intros j Hj. now rewrite lookup_insert_ne.
  - intros tbl Hfresh. apply has_pk_false in Hfresh.
    unfold sqliteBoardRepo_Create, gorm.Create. simpl. rewrite Hfresh.
    eexists. split; [reflexivity|].
    assert (Hnone : List.filter (by_id id) tbl = []).
    { apply filter_nil_iff. intros y Hy. unfold by_id. apply String.eqb_neq.
      exact (proj1 (has_pk_false boardRow_ID tbl id) Hfresh y Hy). }
    split.
    + rewrite sqliteBoardRepo_Get_healthy, List.filter_app, Hnone. simpl.
      unfold by_id. simpl. now rewrite String.eqb_refl.
    + intros j Hj. rewrite !sqliteBoardRepo_Get_healthy, List.filter_app. simpl.
      unfold by_id at 2. simpl.
      assert (String.eqb id j = false) as -> by (apply String.eqb_neq; congruence).
      now rewrite app_nil_r.
  - intros tbl rw Hin Hid. unfold sqliteBoardRepo_Create, gorm.Create. simpl.
    rewrite <- Hid, (has_pk_In boardRow_ID tbl rw Hin). eauto.
Qed.

(** ** The register handler *)

Lemma Register_blank (lower : string -> string) (B : Bcrypt) (J : JWT)
    (users : UserRepository) (s : authService) (email password salt id : string)
    (created now : Time) (st : UR_state users) :
  Strings.TrimSpace (Strings.ToLower lower email) = "" \/ password = "" ->
  authService_Register lower B J users s email password salt id created now st
  = (st, (zeroUser, "", Some (errors_New "email and password required"))).
Proof.
  intros H. unfold authService_Register.
  destruct (String.eqb_spec (Strings.TrimSpace (Strings.ToLower lower email)) "")
    as [|Hn]; [reflexivity|].
  destruct (String.eqb_spec password "") as [|Hp]; [reflexivity|].
  tauto.
Qed.

Lemma Register_mem_fresh (lower : string -> string) (B : Bcrypt) (J : JWT)
    (s : authService) (email password salt id hash : string)
    (created now : Time) (st : memUserRepo) :
  let n := Strings.TrimSpace (Strings.ToLower lower email) in
  n <> "" -> password <> "" ->
  bcrypt_Generate B password salt = (hash, None) ->
  emailIdx st !! n = None ->
  authService_Register lower B J MemUserRepo s email password salt id created now st
  = (mkMemUserRepo (<[id := mkUser id n hash created]> (users st))
                   (<[n := id]> (emailIdx st)),
     (mkUser id n hash created,
      (authService_issueToken J s (mkUser id n hash created) now).1,
      (authService_issueToken J s (mkUser id n hash created) now).2)).
Proof.
  intros n Hn Hp Hg Hi. unfold authService_Register. fold n.
  apply String.eqb_neq in Hn, Hp. rewrite Hn, Hp, Hg. simpl.
  rewrite memUserRepo_Create_absent by exact Hi.
  now destruct (authService_issueToken J s (mkUser id n hash created) now).
Qed.

(** X14. POST /auth/register over the in-memory store, case by case, in
    the order the code decides.  A body that does not bind: 400 "invalid
    body".  An email that is empty once lowered and trimmed, or an empty
    password: 400 "email and password required".  Then the password is
    hashed, before the store is asked: an error of bcrypt (a password of
    more than 72 bytes) is answered with its text, 400 (409 should the text
    contain "exists"), for a registered and for a new email alike.  With a
    hash, an email whose normal form is registered: 409 "user already
    exists".  In all these cases the store is unchanged.  Otherwise the user
    is stored under the normal form, and the answer is 201 with the user's
    id, email and creation time and the token, or, should signing fail, the
    signing error's text with the user stored all the same.  So the answer is
    201 exactly when the body binds, neither input is empty, hashing
    succeeds, the normal form is new and signing succeeds. *)
Theorem AuthHandler_register_answers :
  forall (lower : string -> string) (B : Bcrypt) (J : JWT) (s : authService)
         (email password salt id : string) (created now : Time)
         (st : memUserRepo),
    let n := Strings.TrimSpace (Strings.ToLower lower email) in
    let reg req :=
      AuthHandler_register lower B J MemUserRepo s req salt id created now st in
    let answer (err : error) :=
      if strings_Contains (Error err) "exists"
      then c_JSON StatusConflict (JObj [("error", JStr (Error err))])
      else c_JSON StatusBadRequest (JObj [("error", JStr (Error err))]) in
    let stored hash :=
      mkMemUserRepo (<[id := mkUser id n hash created]> (users st))
                    (<[n := id]> (emailIdx st)) in
    reg None
      = (st, c_JSON StatusBadRequest (JObj [("error", JStr "invalid body")])) /\
    reg (Some (email, password))
      = (if (String.eqb n "" || String.eqb password "")%bool
         then (st, c_JSON StatusBadRequest
                     (JObj [("error", JStr "email and password required")]))
         else
           match bcrypt_Generate B password salt with
           | (_, Some err) => (st, answer err)
           | (hash, None) =>
               match emailIdx st !! n with
               | Some _ =>
                   (st, c_JSON StatusConflict
                          (JObj [("error", JStr "user already exists")]))
               | None =>
                   match authService_issueToken J s (mkUser id n hash created) now with
                   | (_, Some err) => (stored hash, answer err)
                   | (tok, None) =>
                       (stored hash,
                        c_JSON StatusCreated
                          (JObj [("data",
                             JObj [("user", JObj [("id", JStr id); ("email", JStr n);
                                                  ("createdAt", JTime created)]);
                                   ("token", JStr tok)])]))
                   end
               end
           end) /\
    (status (reg (Some (email, password))).2 = StatusCreated <->
     exists hash tok,
       n <> "" /\ password <> "" /\
       bcrypt_Generate B password salt = (hash, None) /\
       emailIdx st !! n = None /\
       authService_issueToken J s (mkUser id n hash created) now = (tok, None) /\
       (reg (Some (email, password))).1 = stored hash) /\
    (status (reg (Some (email, password))).2 = StatusCreated \/
     status (reg (Some (email, password))).2 = StatusBadRequest \/
     status (reg (Some (email, password))).2 = StatusConflict).
Proof.
  intros lower B J s email password salt id created now st n reg answer stored.
  assert (Hans : forall err, status (answer err) = StatusBadRequest \/
                             status (answer err) = StatusConflict).
  { intros err. unfold answer.
    destruct (strings_Contains (Error err) "exists"); auto. }
  assert (Hreg : reg (Some (email, password))
      = (if (String.eqb n "" || String.eqb password "")%bool
         then (st, c_JSON StatusBadRequest
                     (JObj [("error", JStr "email and password required")]))
         else
           match bcrypt_Generate B password salt with
           | (_, Some err) => (st, answer err)
           | (hash, None) =>
               match emailIdx st !! n with
               | Some _ =>
                   (st, c_JSON StatusConflict
                          (JObj [("error", JStr "user already exists")]))
               | None =>
                   match authService_issueToken J s (mkUser id n hash created) now with
                   | (_, Some err) => (stored hash, answer err)
                   | (tok, None) =>
                       (stored hash,
                        c_JSON StatusCreated
                          (JObj [("data",
                             JObj [("user", JObj [("id", JStr id); ("email", JStr n);
                                                  ("createdAt", JTime created)]);
                                   ("token", JStr tok)])]))
                   end
               end
           end)).
  { unfold reg, AuthHandler_register, authService_Register. fold n.
    destruct (String.eqb n "" || String.eqb password "")%bool; [reflexivity|].
    destruct (bcrypt_Generate B password salt) as [hash [err|]].
    { unfold answer. simpl.
      destruct (strings_Contains (Error err) "exists"); reflexivity. }
    simpl UR_Create. unfold memUserRepo_Create.
    destruct (emailIdx st !! n); [reflexivity|]. simpl.
    destruct (authService_issueToken J s (mkUser id n hash created) now)
      as [tok [err|]]; [|reflexivity].
    unfold answer. simpl.
    destruct (strings_Contains (Error err) "exists"); reflexivity. }
  split; [reflexivity|]. split; [exact Hreg|]. rewrite Hreg.
  destruct (String.eqb_spec n "") as [Hn|Hn].
  { simpl. split; [|auto]. split; [discriminate|].
    now intros (? & ? & ? & _). }
  destruct (String.eqb_spec password "") as [Hp|Hp].
  { simpl. split; [|auto]. split; [discriminate|].
    now intros (? & ? & _ & ? & _). }
  simpl.
  destruct (bcrypt_Generate B password salt) as [hash [err|]].
  { split; [|destruct (Hans err); auto]. split.
    - intros Hst. simpl in Hst. destruct (Hans err) as [H|H];
        rewrite H in Hst; discriminate Hst.
    - intros (? & ? & _ & _ & [=] & _). }
  destruct (emailIdx st !! n) eqn:Ei.
  { simpl. split; [|auto]. split; [discriminate|].
    intros (? & ? & _ & _ & _ & [=] & _). }
  destruct (authService_issueToken J s (mkUser id n hash created) now)
    as [tok [err|]] eqn:Et.
  { split; [|destruct (Hans err); auto]. split.
    - intros Hst. simpl in Hst. destruct (Hans err) as [H|H];
        rewrite H in Hst; discriminate Hst.
    - intros (hash' & tok' & _ & _ & [= <-] & _ & Ht & _).
      rewrite Et in Ht. discriminate Ht. }
  simpl. split; [|auto]. split; [intros _|reflexivity].
  exists hash, tok. auto 10.
Qed.

(** X15. The answer of POST /auth/register does not depend on the password
    hash: with two bcrypt implementations (or two salts) that both return a
    hash, the handler gives the same response for the same request on the
    same store, so nothing of the hash reaches the client. *)
Theorem AuthHandler_register_hides_hash :
  forall (lower : string -> string) (B1 B2 : Bcrypt) (J : JWT) (s : authService)
         (req : option (string * string)) (salt1 salt2 id : string)
         (created now : Time) (st : memUserRepo),
    (forall email password, req = Some (email, password) ->
       (bcrypt_Generate B1 password salt1).2 = None /\
       (bcrypt_Generate B2 password salt2).2 = None) ->
    (AuthHandler_register lower B1 J MemUserRepo s req salt1 id created now st).2
    = (AuthHandler_register lower B2 J MemUserRepo s req salt2 id created now st).2.
Proof.
  intros lower B1 B2 J s [[email password]|] salt1 salt2 id created now st Hg;
    [|reflexivity].
  destruct (Hg email password eq_refl) as [H1 H2].
  destruct (bcrypt_Generate B1 password salt1) as [h1 e1] eqn:E1.
  destruct (bcrypt_Generate B2 password salt2) as [h2 e2] eqn:E2.
  simpl in H1, H2. subst e1 e2.
  set (n := Strings.TrimSpace (Strings.ToLower lower email)).
  destruct (String.eqb_spec n "") as [Hn|Hn];
    [|destruct (String.eqb_spec password "") as [Hp|Hp]].
  - unfold AuthHandler_register. rewrite !Register_blank by (left; exact Hn).
    reflexivity.
  - unfold AuthHandler_register. rewrite !Register_blank by (right; exact Hp).
    reflexivity.
  - destruct (emailIdx st !! n) as [i|] eqn:Ei.
    + unfold AuthHandler_register.
      rewrite (Register_mem_duplicate lower B1 J s email password salt1 id h1
                 created now st) by (fold n; eauto).
      rewrite (Register_mem_duplicate lower B2 J s email password salt2 id h2
                 created now st) by (fold n; eauto).
      reflexivity.
    + unfold AuthHandler_register.
      rewrite (Register_mem_fresh lower B1 J s email password salt1 id h1
                 created now st Hn Hp E1 Ei).
      rewrite (Register_mem_fresh lower B2 J s email password salt2 id h2
                 created now st Hn Hp E2 Ei).
      fold n. unfold authService_issueToken, issueToken_claims. simpl.
      destruct (jwt_SignedString J (jwtSecret s) _) as [tok [e|]]; simpl;
        [destruct (strings_Contains (Error e) "exists")|]; reflexivity.
Qed.

Lemma AuthHandler_register_hides_hash_witness :
  (AuthHandler_register no_unicode_lower clear_bcrypt clear_jwt MemUserRepo
     (mkAuthService "dev-secret" (24 * Hour)%Z)
     (Some ("Alice@Example.com", "secret1")) "salt-one" uuid1 10%Z 11%Z
     NewMemUserRepo).2
  = (AuthHandler_register no_unicode_lower clear_bcrypt clear_jwt MemUserRepo
       (mkAuthService "dev-secret" (24 * Hour)%Z)
       (Some ("Alice@Example.com", "secret1")) "salt-two" uuid1 10%Z 11%Z
       NewMemUserRepo).2.
Proof.
  apply (AuthHandler_register_hides_hash no_unicode_lower clear_bcrypt clear_bcrypt
           clear_jwt (mkAuthService "dev-secret" (24 * Hour)%Z)
           (Some ("Alice@Example.com", "secret1")) "salt-one" "salt-two" uuid1
           10%Z 11%Z NewMemUserRepo).
  intros email password [= <- <-]. split; reflexivity.
Defined.

Example AuthHandler_register_run :
  let s := mkAuthService "dev-secret" (24 * Hour)%Z in
  let '(st1, resp1) :=
    AuthHandler_register no_unicode_lower clear_bcrypt clear_jwt MemUserRepo s
      (Some ("Alice@Example.com", "secret1")) "salt" uuid1 10%Z 11%Z NewMemUserRepo in
  status resp1 = StatusCreated /\
  (AuthHandler_register no_unicode_lower clear_bcrypt clear_jwt MemUserRepo s
     (Some (" alice@example.COM", "other")) "salt" uuid2 20%Z 21%Z st1).2
  = c_JSON StatusConflict (JObj [("error", JStr "user already exists")]).
Proof. vm_compute. auto. Qed.

(** A password of 73 bytes: hashing fails before the store is asked, so the
    answer is 400 with bcrypt's text whether the email is new or registered,
    and the store stays as it was. *)
Example AuthHandler_register_long_password :
  let s := mkAuthService "dev-secret" (24 * Hour)%Z in
  let long :=
    "0123456789012345678901234567890123456789012345678901234567890123456789012" in
  let refused :=
    c_JSON StatusBadRequest
      (JObj [("error", JStr "bcrypt: password length exceeds 72 bytes")]) in
  let st1 :=
    (AuthHandler_register no_unicode_lower clear_bcrypt clear_jwt MemUserRepo s
       (Some ("alice@example.com", "secret1")) "salt" uuid1 10%Z 11%Z
       NewMemUserRepo).1 in
  String.length long = 73 /\
  AuthHandler_register no_unicode_lower clear_bcrypt clear_jwt MemUserRepo s
    (Some ("bob@example.com", long)) "salt" uuid2 20%Z 21%Z st1 = (st1, refused) /\
  AuthHandler_register no_unicode_lower clear_bcrypt clear_jwt MemUserRepo s
    (Some ("alice@example.com", long)) "salt" uuid2 20%Z 21%Z st1 = (st1, refused).
Proof. vm_compute. auto. Qed.

(** ** The private routes *)

(** X16. A private route either runs its handler, and then the header
    carried a token that verifies under the secret and is valid at that
    time, or it answers 401 with "missing bearer token" (the header does not
    start with "Bearer ") or "invalid token", and then the handler has not
    run: the store is as it was. *)
Theorem private_route_gate :
  forall (St : Type) (J : JWT) (secret authz : string) (now : Time)
         (handler : St -> St * Response) (st : St),
    (private_route J secret authz now handler st = handler st /\
     exists raw c,
       authz = "Bearer " +:+ raw /\
       jwt_ParseSigned J raw secret = inr c /\
       Validate (Registered c) now = true) \/
    (private_route J secret authz now handler st
       = (st, c_JSON StatusUnauthorized
                (JObj [("error", JStr "missing bearer token")])) /\
     Strings.HasPrefix authz "Bearer " = false) \/
    (private_route J secret authz now handler st
       = (st, c_JSON StatusUnauthorized (JObj [("error", JStr "invalid token")])) /\
     Strings.HasPrefix authz "Bearer " = true /\
     forall c, jwt_ParseSigned J (Strings.TrimPrefix authz "Bearer ") secret = inr c ->
               Validate (Registered c) now = false).
Proof.
  intros St J secret authz now handler st.
  unfold private_route. rewrite AuthRequired_cases.
  destruct (Strings.HasPrefix authz "Bearer ") eqn:Hp; [|right; left; auto].
  destruct (jwt_ParseSigned J (Strings.TrimPrefix authz "Bearer ") secret)
    as [e|c] eqn:Hc.
  - right; right. repeat split; auto. intros c [=].
  - destruct (Validate (Registered c) now) eqn:Hv.
    + left. split; [reflexivity|].
      apply HasPrefix_true in Hp as [raw ->].
      rewrite TrimPrefix_append in Hc. eauto.
    + right; right. repeat split; auto. now intros c' [= <-].
Qed.



Example main_end_to_end_run :
  let '(ust, (u, tok, err)) :=
    authService_Register no_unicode_lower clear_bcrypt clear_jwt MemUserRepo
      (main_authSvc "") "alice@example.com" "secret1" "salt" uuid1
      1700000000400000000%Z 1700000000500000000%Z NewMemUserRepo in
  err = None /\
  main_private clear_jwt "" ("Bearer " +:+ tok) 1700086399500000000%Z
    (BoardHandler_create MemBoardRepo (Some " Sprint 1 ") uuid2 1700086399500000000%Z)
    NewMemBoardRepo
  = (mkMemBoardRepo
       {[uuid2 := mkBoard uuid2 "Sprint 1" 1700086399500000000%Z 1700086399500000000%Z]},
     c_JSON StatusCreated
       (JObj [("data", Board_JSON (mkBoard uuid2 "Sprint 1"
                                     1700086399500000000%Z 1700086399500000000%Z))])) /\
  main_private clear_jwt "" ("Bearer " +:+ tok) 1700086400000000000%Z
    (BoardHandler_create MemBoardRepo (Some " Sprint 1 ") uuid2 1700086400000000000%Z)
    NewMemBoardRepo
  = (NewMemBoardRepo,
     c_JSON StatusUnauthorized (JObj [("error", JStr "invalid token")])).
Proof. vm_compute. auto. Qed.

(** ** The board handlers over the stores *)

(** X18. A board's life through the handlers of the in-memory store, for
    any two titles that are not blank: POST answers 201 with the board
    under the trimmed title, GET 200 with the same board, PUT 200 with the
    new trimmed title, the creation time kept and the update time set, GET
    200 with that, DELETE 204 without a body, and after it GET and DELETE
    answer 404 "not found"; every other board of the store is as it was. *)
Theorem BoardHandler_lifecycle :
  forall (r : memBoardRepo) (title title' id : string) (t1 t2 : Time),
    Strings.TrimSpace title <> "" ->
    Strings.TrimSpace title' <> "" ->
    let b1 := mkBoard id (Strings.TrimSpace title) t1 t1 in
    let b2 := mkBoard id (Strings.TrimSpace title') t1 t2 in
    exists r1 r2 r3,
      BoardHandler_create MemBoardRepo (Some title) id t1 r
        = (r1, c_JSON StatusCreated (JObj [("data", Board_JSON b1)])) /\
      BoardHandler_get MemBoardRepo id r1
        = c_JSON StatusOK (JObj [("data", Board_JSON b1)]) /\
      BoardHandler_update MemBoardRepo id (Some title') t2 r1
        = (r2, c_JSON StatusOK (JObj [("data", Board_JSON b2)])) /\
      BoardHandler_get MemBoardRepo id r2
        = c_JSON StatusOK (JObj [("data", Board_JSON b2)]) /\
      BoardHandler_delete MemBoardRepo id r2 = (r3, mkResponse StatusNoContent None) /\
      BoardHandler_get MemBoardRepo id r3
        = c_JSON StatusNotFound (JObj [("error", JStr "not found")]) /\
      BoardHandler_delete MemBoardRepo id r3
        = (r3, c_JSON StatusNotFound (JObj [("error", JStr "not found")])) /\
      forall j, j <> id -> boards r3 !! j = boards r !! j.
Proof.
  intros r title title' id t1 t2 Ht Ht' b1 b2.
  apply String.eqb_neq in Ht, Ht'.
  set (r1 := mkMemBoardRepo (<[id := b1]> (boards r))).
  set (r2 := mkMemBoardRepo (<[id := b2]> (boards r1))).
  set (r3 := mkMemBoardRepo (delete id (boards r2))).
  assert (H1 : boards r1 !! id = Some b1) by apply lookup_insert_eq.
  assert (H2 : boards r2 !! id = Some b2) by apply lookup_insert_eq.
  assert (H3 : boards r3 !! id = None) by apply lookup_delete_eq.
  exists r1, r2, r3.
  unfold BoardHandler_create, BoardHandler_get, BoardHandler_update,
    BoardHandler_delete, boardService_CreateBoard, boardService_GetBoard,
    boardService_UpdateBoard, boardService_DeleteBoard.
  rewrite Ht, Ht'. simpl BR_Create. simpl BR_Get. simpl BR_Update. simpl BR_Delete.
  unfold memBoardRepo_Get, memBoardRepo_Update, memBoardRepo_Delete.
  rewrite H1, H2, H3.
  repeat (split; [reflexivity|]).
  intros j Hj. simpl. rewrite lookup_delete_ne by congruence.
  now rewrite !lookup_insert_ne by congruence.
Qed.

Lemma BoardHandler_lifecycle_witness :
  let b1 := mkBoard uuid1 "Sprint 1" 10%Z 10%Z in
  let b2 := mkBoard uuid1 "Sprint One" 10%Z 20%Z in
  exists r1 r2 r3,
    BoardHandler_create MemBoardRepo (Some " Sprint 1") uuid1 10%Z NewMemBoardRepo
      = (r1, c_JSON StatusCreated (JObj [("data", Board_JSON b1)])) /\
    BoardHandler_get MemBoardRepo uuid1 r1
      = c_JSON StatusOK (JObj [("data", Board_JSON b1)]) /\
    BoardHandler_update MemBoardRepo uuid1 (Some "Sprint One  ") 20%Z r1
      = (r2, c_JSON StatusOK (JObj [("data", Board_JSON b2)])) /\
    BoardHandler_get MemBoardRepo uuid1 r2
      = c_JSON StatusOK (JObj [("data", Board_JSON b2)]) /\
    BoardHandler_delete MemBoardRepo uuid1 r2 = (r3, mkResponse StatusNoContent None) /\
    BoardHandler_get MemBoardRepo uuid1 r3
      = c_JSON StatusNotFound (JObj [("error", JStr "not found")]) /\
    BoardHandler_delete MemBoardRepo uuid1 r3
      = (r3, c_JSON StatusNotFound (JObj [("error", JStr "not found")])) /\
    forall j, j <> uuid1 -> boards r3 !! j = boards NewMemBoardRepo !! j.
Proof.
  exact (BoardHandler_lifecycle NewMemBoardRepo " Sprint 1" "Sprint One  " uuid1
           10%Z 20%Z ltac:(vm_compute; discriminate) ltac:(vm_compute; discriminate)).
Defined.

(** X19. When the SQLite connection fails, the board handlers report it as
    a client error: GET answers 404 "not found" whether or not the board
    exists, DELETE 404 and POST and PUT (with a title that is not blank) 400
    with the driver's text, and the table is untouched. *)
Theorem BoardHandler_on_failed_connection :
  forall (tbl : list boardRow) (msg id newid title : string) (now : Time),
    let st : BR_state SQLiteBoardRepo := gorm.mkDB tbl (Some msg) in
    BoardHandler_get SQLiteBoardRepo id st
      = c_JSON StatusNotFound (JObj [("error", JStr "not found")]) /\
    BoardHandler_delete SQLiteBoardRepo id st
      = (st, c_JSON StatusNotFound (JObj [("error", JStr msg)])) /\
    (Strings.TrimSpace title <> "" ->
     BoardHandler_create SQLiteBoardRepo (Some title) newid now st
       = (st, c_JSON StatusBadRequest (JObj [("error", JStr msg)])) /\
     BoardHandler_update SQLiteBoardRepo id (Some title) now st
       = (st, c_JSON StatusBadRequest (JObj [("error", JStr msg)]))).
Proof.
  intros tbl msg id newid title now st.
  split; [reflexivity|]. split; [reflexivity|].
  intros Ht. apply String.eqb_neq in Ht.
  unfold BoardHandler_create, BoardHandler_update, boardService_CreateBoard,
    boardService_UpdateBoard. rewrite Ht. split; reflexivity.
Qed.

(** ** The SQLite user store *)

(** X20. On a working connection a [Create] of the SQLite user store under
    an ID no row has succeeds; [GetByID] of that ID then returns the created
    user, and [GetByEmail] of its email returns a user with that email,
    which is the created user when no earlier row has the email.  Under an
    ID some row has, [Create] fails and the table is as it was. *)
Theorem sqliteUserRep_Create_then_Get :
  forall (tbl : list userRow) (email hash id : string) (now : Time),
    let u := mkUser id email hash now in
    ((forall rw, In rw tbl -> userRow_ID rw <> id) ->
     exists r',
       sqliteUserRep_Create email hash id now (gorm.mkDB tbl None) = (r', (u, None)) /\
       sqliteUserRep_GetByID id r' = (u, None) /\
       (sqliteUserRep_GetByEmail email r').2 = None /\
       User_Email (sqliteUserRep_GetByEmail email r').1 = email /\
       ((forall rw, In rw tbl -> userRow_Email rw <> email) ->
        sqliteUserRep_GetByEmail email r' = (u, None))) /\
    (forall rw, In rw tbl -> userRow_ID rw = id ->
     exists err,
       sqliteUserRep_Create email hash id now (gorm.mkDB tbl None)
       = (gorm.mkDB tbl None, (zeroUser, Some err))).
Proof.
  intros tbl email hash id now u. split.
  - intros Hfresh. pose proof Hfresh as Hpk. apply has_pk_false in Hpk.
    rewrite sqliteUserRep_Create_fresh_id by exact Hpk.
    eexists. split; [reflexivity|].
    set (row := mkUserRow id email hash now).
    assert (Hrow : exists rw,
              gorm.least userRow_ID
                (List.filter (fun rw => String.eqb (userRow_Email rw) email)
                   (tbl ++ [row])) = Some rw /\ userRow_Email rw = email).
    { destruct (gorm.least userRow_ID _) as [rw|] eqn:E.
      - exists rw. split; [reflexivity|].
        apply least_In, filter_In in E as [_ E]. now apply String.eqb_eq in E.
      - exfalso. apply least_None in E.
        rewrite List.filter_app in E. simpl in E.
        rewrite String.eqb_refl in E. now destruct (List.filter _ tbl). }
    destruct Hrow as (rw & Hrw & Hmail).
    split; [|split; [|split]].
    + unfold sqliteUserRep_GetByID, gorm.First. simpl.
      rewrite List.filter_app. simpl. rewrite String.eqb_refl.
      rewrite (proj2 (filter_nil_iff _ tbl)); [reflexivity|].
      intros rw' Hin. apply String.eqb_neq. auto.
    + unfold sqliteUserRep_GetByEmail, gorm.First. simpl. now rewrite Hrw.
    + unfold sqliteUserRep_GetByEmail, gorm.First. simpl. now rewrite Hrw.
    + intros Hemail.
      apply (sqliteUserRep_Create_GetByEmail tbl email hash id now _ u Hemail).
      now apply sqliteUserRep_Create_fresh_id.
  - intros rw Hin Hid. unfold sqliteUserRep_Create, gorm.Create. simpl.
    rewrite <- Hid, (has_pk_In userRow_ID tbl rw Hin). eauto.
Qed.

(** ** The normal form of an email *)

Lemma lower_byte_ascii (c : ascii) :
  Nat.ltb (nat_of_ascii c) 128 = true ->
  Nat.ltb (nat_of_ascii (Strings.lower_byte c)) 128 = true /\
  Strings.lower_byte (Strings.lower_byte c) = Strings.lower_byte c.
Proof.
  destruct c as [[] [] [] [] [] [] [] []]; vm_compute;
    intros H; split; (reflexivity || discriminate).
Qed.

Lemma lowered_bytes (l : list ascii) :
  Strings.isASCII l = true ->
  Forall (fun c => Nat.ltb (nat_of_ascii c) 128 = true /\ Strings.lower_byte c = c)
    (map Strings.lower_byte l).
Proof.
  induction l as [|c l IH]; simpl; [constructor|].
  intros H. apply andb_true_iff in H as [Hc Hl].
  constructor; [now apply lower_byte_ascii|auto].
Qed.

Lemma map_lower_byte_fixed (l : list ascii) :
  Forall (fun c => Nat.ltb (nat_of_ascii c) 128 = true /\ Strings.lower_byte c = c) l ->
  map Strings.lower_byte l = l.
Proof.
  induction 1 as [|c k [_ Hc] Hk IH]; [reflexivity|]. simpl. now rewrite Hc, IH.
Qed.

Lemma ToLower_fixed (lower : string -> string) (s : string) :
  Forall (fun c => Nat.ltb (nat_of_ascii c) 128 = true /\ Strings.lower_byte c = c)
    (Strings.bytes s) ->
  Strings.isASCII (Strings.bytes s) = true /\ Strings.ToLower lower s = s.
Proof.
  intros H.
  assert (Ha : Strings.isASCII (Strings.bytes s) = true).
  { unfold Strings.isASCII. apply forallb_forall. intros c Hc.
    rewrite Forall_forall in H. apply list_elem_of_In in Hc.
    now destruct (H c Hc). }
  split; [exact Ha|]. unfold Strings.ToLower. rewrite Ha.
  rewrite (map_lower_byte_fixed _ H). apply of_bytes_bytes.
Qed.

(** X21. For an email of ASCII bytes, the form the auth service stores and
    looks up (lowered, then trimmed) is a fixed point of the normalization:
    it is ASCII, has no upper-case letter and no white space at either end,
    and normalizing it again changes nothing, so a login under the stored
    address is the same call as a login under the address as typed. *)
Theorem normalized_ascii_fixed :
  forall (lower : string -> string) (email : string),
    Strings.isASCII (Strings.bytes email) = true ->
    let n := Strings.TrimSpace (Strings.ToLower lower email) in
    Strings.TrimSpace (Strings.ToLower lower n) = n /\
    Strings.isASCII (Strings.bytes n) = true /\
    map Strings.lower_byte (Strings.bytes n) = Strings.bytes n /\
    Strings.strip_any Strings.space_runes (Strings.bytes n) = None /\
    Strings.strip_any (map (@rev ascii) Strings.space_runes)
      (rev (Strings.bytes n)) = None /\
    forall (B : Bcrypt) (J : JWT) (users : UserRepository) (s : authService)
           (password : string) (now : Time) (st : UR_state users),
      authService_Login lower B J users s n password now st
      = authService_Login lower B J users s email password now st.
Proof.
  intros lower email Hascii n.
  assert (Hx : Strings.ToLower lower email
               = Strings.of_bytes (map Strings.lower_byte (Strings.bytes email))).
  { unfold Strings.ToLower. now rewrite Hascii. }
  destruct (TrimSpace_spec (Strings.ToLower lower email))
    as ((l & r & Hseg & _ & _) & Hlead & Htrail).
  fold n in Hseg, Hlead, Htrail.
  assert (HP : Forall (fun c => Nat.ltb (nat_of_ascii c) 128 = true /\
                                Strings.lower_byte c = c) (Strings.bytes n)).
  { pose proof (lowered_bytes _ Hascii) as Hall.
    rewrite Hx, bytes_of_bytes in Hseg. rewrite Hseg in Hall.
    apply Forall_app in Hall as [_ Hall]. now apply Forall_app in Hall as [Hall _]. }
  destruct (ToLower_fixed lower n HP) as [Han Hfix].
  assert (Hn : Strings.TrimSpace (Strings.ToLower lower n) = n).
  { rewrite Hfix. apply TrimSpace_idempotent. }
  split; [exact Hn|]. split; [exact Han|]. split; [|split; [exact Hlead|split; [exact Htrail|]]].
  - exact (map_lower_byte_fixed _ HP).
  - intros B J users s password now st. unfold authService_Login. now rewrite Hn.
Qed.

Lemma normalized_ascii_fixed_witness :
  let n := Strings.TrimSpace (Strings.ToLower no_unicode_lower "  Alice@Example.COM ") in
  Strings.TrimSpace (Strings.ToLower no_unicode_lower n) = n /\
  Strings.isASCII (Strings.bytes n) = true /\
  map Strings.lower_byte (Strings.bytes n) = Strings.bytes n /\
  Strings.strip_any Strings.space_runes (Strings.bytes n) = None /\
  Strings.strip_any (map (@rev ascii) Strings.space_runes)
    (rev (Strings.bytes n)) = None /\
  forall (B : Bcrypt) (J : JWT) (users : UserRepository) (s : authService)
         (password : string) (now : Time) (st : UR_state users),
    authService_Login no_unicode_lower B J users s n password now st
    = authService_Login no_unicode_lower B J users s "  Alice@Example.COM "
        password now st.
Proof.
  exact (normalized_ascii_fixed no_unicode_lower "  Alice@Example.COM " eq_refl).
Defined.

(** ** The login handler *)

(** X22. POST /auth/login answers 200 exactly when the body binds, the
    store finds a user under the trimmed, lowered email, bcrypt accepts the
    password against that user's hash and signing succeeds; the body then
    carries that user's id, email and creation time and the token.  It
    answers 400 when the body does not bind and 401 "invalid credentials"
    in every other case. *)
Theorem AuthHandler_login_answers :
  forall (lower : string -> string) (B : Bcrypt) (J : JWT)
         (users : UserRepository) (s : authService)
         (req : option (string * string)) (now : Time) (st : UR_state users),
    let resp := AuthHandler_login lower B J users s req now st in
    (status resp = StatusOK <->
     exists email password u tok,
       req = Some (email, password) /\
       UR_GetByEmail users (Strings.TrimSpace (Strings.ToLower lower email)) st
         = (u, None) /\
       bcrypt_Compare B (User_PasswordHash u) password = None /\
       authService_issueToken J s u now = (tok, None) /\
       resp = c_JSON StatusOK
                (JObj [("data",
                   JObj [("user", JObj [("id", JStr (User_ID u));
                                        ("email", JStr (User_Email u));
                                        ("createdAt", JTime (User_CreatedAt u))]);
                         ("token", JStr tok)])])) /\
    (req = None <->
     resp = c_JSON StatusBadRequest (JObj [("error", JStr "invalid body")])) /\
    (status resp = StatusOK \/
     resp = c_JSON StatusBadRequest (JObj [("error", JStr "invalid body")]) \/
     resp = c_JSON StatusUnauthorized (JObj [("error", JStr "invalid credentials")])).
Proof.
  intros lower B J users s req now st resp. unfold resp, AuthHandler_login.
  destruct req as [[email password]|].
  - destruct (authService_Login lower B J users s email password now st)
      as [[u tok] [e|]] eqn:E.
    + split; [split; [discriminate|]|split; [split; discriminate|auto]].
      intros (email' & password' & u' & tok' & [= <- <-] & Hg & Hc & Hi & _).
      rewrite (Login_ok lower B J users s email password now st u' Hg Hc) in E.
      rewrite Hi in E. discriminate.
    + split; [split; [intros _|reflexivity]|split; [split; discriminate|auto]].
      destruct (Login_returned _ _ _ _ _ _ _ _ _ _ _ E) as (Hg & Hc & Hi).
      exists email, password, u, tok. auto.
  - split; [split; [discriminate|now intros (? & ? & ? & ? & [=] & _)]|].
    split; [split; reflexivity|auto].
Qed.

(** ** [strings.Contains] *)

(** [Contains_bytes sub l] holds exactly when [sub] occurs in [l]. *)
Lemma Contains_bytes_spec (sub l : list ascii) :
  Contains_bytes sub l = true <-> exists pre post, l = pre ++ sub ++ post.
Proof.
  induction l as [|c l IH].
  - simpl. destruct (Strings.strip sub []) as [rest|] eqn:E.
    + split; [intros _|reflexivity]. apply strip_Some in E. exists [], rest. exact E.
    + split; [discriminate|]. intros (pre & post & H). exfalso.
      symmetry in H. apply app_eq_nil in H as [-> H]. apply app_eq_nil in H as [-> ->].
      discriminate E.
  - simpl. destruct (Strings.strip sub (c :: l)) as [rest|] eqn:E.
    + split; [intros _|reflexivity]. apply strip_Some in E. exists [], rest. exact E.
    + rewrite IH. split.
      * intros (pre & post & ->). exists (c :: pre), post. reflexivity.
      * intros (pre & post & H). destruct pre as [|d pre].
        -- simpl in H. apply strip_Some in H. congruence.
        -- injection H as _ ->. eauto.
Qed.

Example strings_Contains_exists :
  strings_Contains "user already exists" "exists" = true /\
  strings_Contains "email and password required" "exists" = false /\
  strings_Contains "" "" = true.
Proof. repeat split; reflexivity. Qed.
